(** * A redux store and its renderers: basic.js and react/connect.js

    A shallow embedding of the tutorial's programs:
    - [JS]: the fragment of JavaScript the sources rely on (string
      concatenation, [String.prototype.substr], strict inequality);
    - [reducer], [insertCharacter]: the text reducer shared by every example;
    - [Redux]: the store the examples obtain from [createStore];
    - [Naive], [Basic]: the console renderers (render on every notification,
      and render on change only);
    - [Connect]: the hand-rolled React binding of react/connect.js;
    - [Timer]: the interval callbacks that stand for the user;
    - [Dom], [StoreView], [ConnectedView]: the React views, the one of
      react/view.js that talks to the store and the one under the connector;
    - [Rollup]: the warning filter of the build configuration. *)

From Stdlib Require Import ZArith Lia Ascii String List.
From stdpp Require Import base strings list gmap.

Local Open Scope string_scope.
Local Open Scope list_scope.

(** ** JavaScript values and string primitives *)

Module JS.

Local Open Scope Z_scope.

(** The values that reach an action's payload or a creator's arguments.
    A string is a sequence of code units; one element of a [string] stands
    for one code unit. *)
Inductive Val : Type :=
| VUndefined
| VString (s : string).

(** [ToString], as applied by [+] and by template literals. *)
Definition ToString (v : Val) : string :=
  match v with
  | VUndefined => "undefined"
  | VString s => s
  end.

(** [s + v] with a string on the left: concatenation with [ToString v]. *)
Definition plus (s : string) (v : Val) : string := s +:+ ToString v.

(** [s.length] *)
Definition length (s : string) : Z := Z.of_nat (String.length s).

(** [s.substr(start, len)]: a negative [start] counts from the end, the
    length is clamped to what is left of the string, and a length that is
    not positive gives the empty string. *)
Definition substr (s : string) (start len : Z) : string :=
  let size := length s in
  let intStart := if start <? 0 then Z.max (size + start) 0 else Z.min start size in
  let intLength := Z.min (Z.max len 0) size in
  let intEnd := Z.min (intStart + intLength) size in
  String.substring (Z.to_nat intStart) (Z.to_nat (intEnd - intStart)) s.

(** [prev !== text] where [text] is a string and [prev] is a string or
    [undefined] ([None]): strings compare by value, [undefined] differs
    from every string. *)
Definition strict_neq (prev : option string) (text : string) : bool :=
  match prev with
  | None => true
  | Some p => negb (String.eqb p text)
  end.

(** The double quote character, and the template literal of [View]. *)
Definition dquote : string := String (Ascii false true false false false true false false) EmptyString.
Definition quoted (text : string) : string := dquote +:+ text +:+ dquote.

End JS.

(** ** Actions and the reducer *)

Record Action : Type := { type : string; char : JS.Val }.

(** [const insertCharacter = char => ({ type: 'CHARACTER_TYPED', char })] *)
Definition insertCharacter (char : JS.Val) : Action :=
  {| type := "CHARACTER_TYPED"; char := char |}.

(** [const reducer = (state = '', action) => { switch (action.type) ... }] *)
Definition reducer (state : option string) (action : Action) : string :=
  let state := match state with Some s => s | None => "" end in
  if String.eqb (type action) "CHARACTER_TYPED" then
    JS.plus state (char action)
  else if String.eqb (type action) "BACKSPACE" then
    JS.substr state 0 (JS.length state - 1)%Z
  else
    state.

(** ** The store *)

(** Modelled from the spec: [createStore] comes from the redux package, which
    is not part of the sources. Section 4.1 gives its contract: [getState]
    returns the current state; [dispatch] computes the reducer on the current
    state, replaces it and then calls every listener in registration order;
    [subscribe] appends a listener and hands back what removes exactly that
    registration. On creation redux reduces its private init action from an
    undefined state. A listener takes no argument: what it reads through
    [store.getState()] is passed to it, and what it mutates outside the store
    is the environment [Env]. *)
Module Redux.
Section Store.

Context {State Act Env : Type}.
Variable reducer : option State -> Act -> State.

Definition Listener : Type := State -> Env -> Env.

Record Store : Type := {
  currentState : State;
  currentListeners : list (nat * Listener);
  nextHandle : nat
}.

Definition createStore (init : Act) : Store :=
  {| currentState := reducer None init; currentListeners := []; nextHandle := 0 |}.

Definition getState (store : Store) : State := currentState store.

Definition notify (s : State) (ls : list (nat * Listener)) (env : Env) : Env :=
  foldl (fun e l => snd l s e) env ls.

Definition dispatch (action : Act) (w : Store * Env) : Store * Env :=
  let store := fst w in
  let s := reducer (Some (currentState store)) action in
  ({| currentState := s;
      currentListeners := currentListeners store;
      nextHandle := nextHandle store |},
   notify s (currentListeners store) (snd w)).

Definition subscribe (listener : Listener) (store : Store) : Store * nat :=
  ({| currentState := currentState store;
      currentListeners := currentListeners store ++ [(nextHandle store, listener)];
      nextHandle := S (nextHandle store) |},
   nextHandle store).

Definition unsubscribe (handle : nat) (store : Store) : Store :=
  {| currentState := currentState store;
     currentListeners := filter (fun l => fst l ≠ handle) (currentListeners store);
     nextHandle := nextHandle store |}.

Definition dispatches (actions : list Act) (w : Store * Env) : Store * Env :=
  foldl (fun w a => dispatch a w) w actions.

End Store.
End Redux.

Arguments Redux.Store : clear implicits.

(** redux's private init action; its type is no case of the reducer. *)
Definition INIT : Action := {| type := "@@redux/INIT"; char := JS.VUndefined |}.

(** ** The naive console renderer (the first listing of basic.js) *)

Module Naive.

(** All that the program mutates outside the store: the console's lines. *)
Definition Globals : Type := list string.

(** [function View(text) { console.log(`"${text}"`); }] *)
Definition View (text : string) (g : Globals) : Globals := g ++ [JS.quoted text].

(** [function render() { const text = store.getState(); View(text); }] *)
Definition render : Redux.Listener (State := string) (Env := Globals) :=
  fun text g => View text g.

(** [const store = createStore(reducer); store.subscribe(render);] *)
Definition boot : Redux.Store string Globals * Globals :=
  (fst (Redux.subscribe render (Redux.createStore reducer INIT)), []).

Definition run (actions : list Action) : Redux.Store string Globals * Globals :=
  Redux.dispatches reducer actions boot.

Definition console (w : Redux.Store string Globals * Globals) : list string := snd w.

End Naive.

(** ** The change-detecting console renderer (basic.js) *)

Module Basic.

(** [let prevText;] and the console. *)
Record Globals : Type := { prevText : option string; console : list string }.

Definition View (text : string) (g : Globals) : Globals :=
  {| prevText := prevText g; console := console g ++ [JS.quoted text] |}.

(** [function render() { const text = store.getState();
      if (prevText !== text) { prevText = text; View(text); } }] *)
Definition render : Redux.Listener (State := string) (Env := Globals) :=
  fun text g =>
    if JS.strict_neq (prevText g) text then
      View text {| prevText := Some text; console := console g |}
    else g.

Definition boot : Redux.Store string Globals * Globals :=
  (fst (Redux.subscribe render (Redux.createStore reducer INIT)),
   {| prevText := None; console := [] |}).

Definition run (actions : list Action) : Redux.Store string Globals * Globals :=
  Redux.dispatches reducer actions boot.

Definition state (w : Redux.Store string Globals * Globals) : string :=
  Redux.getState (fst w).

Definition lines (w : Redux.Store string Globals * Globals) : list string :=
  console (snd w).

(** The store has [render] as its one listener. *)
Definition wired (w : Redux.Store string Globals * Globals) : Prop :=
  exists h, Redux.currentListeners (fst w) = [(h, render)].

(** The states the store goes through, one per dispatch, from state [s]. *)
Fixpoint trace (s : string) (actions : list Action) : list string :=
  match actions with
  | [] => []
  | a :: rest => let s' := reducer (Some s) a in s' :: trace s' rest
  end.

(** What a run of [render] over successive states passes on to [View],
    starting with [prev] in [prevText]. *)
Fixpoint rendered (prev : option string) (states : list string) : list string :=
  match states with
  | [] => []
  | s :: rest =>
      if JS.strict_neq prev s then s :: rendered (Some s) rest
      else rendered prev rest
  end.

(** The timer callback that stands for the user: it types [userInput] one
    code unit per tick and, after every fifth one, dispatches an action of
    type RANDOM instead. *)
Definition userInput : string := "This is some amazing text!".

Record Driver : Type := { index : nat; nextIsRandom : bool }.

Definition tick (d : Driver) (w : Redux.Store string Globals * Globals)
  : Driver * (Redux.Store string Globals * Globals) :=
  if Nat.ltb (index d) (String.length userInput) then
    if nextIsRandom d then
      ({| index := index d; nextIsRandom := false |},
       Redux.dispatch reducer {| type := "RANDOM"; char := JS.VUndefined |} w)
    else
      let c := match String.get (index d) userInput with
               | Some c => JS.VString (String c EmptyString)
               | None => JS.VUndefined
               end in
      ({| index := S (index d); nextIsRandom := Nat.eqb (S (index d) mod 5) 0 |},
       Redux.dispatch reducer (insertCharacter c) w)
  else (d, w).

Fixpoint ticks (n : nat) (d : Driver) (w : Redux.Store string Globals * Globals)
  : Driver * (Redux.Store string Globals * Globals) :=
  match n with
  | O => (d, w)
  | S n' => let dw := tick d w in ticks n' (fst dw) (snd dw)
  end.

End Basic.

(** ** What the specification says, in its own words *)

Module Spec.

(** "each CHARACTER_TYPED appends its character, each BACKSPACE deletes the
    last character": the net effect of a sequence of edits on a buffer of
    characters. *)
Definition edit (buffer : list ascii) (action : Action) : list ascii :=
  if String.eqb (type action) "CHARACTER_TYPED" then
    buffer ++ list_ascii_of_string (JS.ToString (char action))
  else removelast buffer.

Definition net_effect (actions : list Action) : list ascii :=
  foldl edit [] actions.

(** "with consecutive duplicate state values removed" *)
Fixpoint remove_consecutive_duplicates (l : list string) : list string :=
  match l with
  | [] => []
  | x :: rest =>
      match rest with
      | [] => [x]
      | y :: _ =>
          if String.eqb x y then remove_consecutive_duplicates rest
          else x :: remove_consecutive_duplicates rest
      end
  end.

End Spec.

(** ** The hand-rolled React binding (react/connect.js) *)

Module Connect.

(** What a constructor or a call completes with: a value, or the TypeError
    JavaScript throws on [undefined.getState()] and on calling what is no
    function. *)
Inductive Result (A : Type) : Type :=
| Ok (a : A)
| TypeError.
Arguments Ok {A} a.
Arguments TypeError {A}.

Section Connector.

Context {State Act Comp : Type}.
Variable reducer : option State -> Act -> State.

(** The values found in props, in context and in component state: plain
    values, the store object, and the callables the connector builds, each
    one closed over the action creator it was built from. *)
Inductive PropVal : Type :=
| PVal (v : JS.Val)
| PStore
| PBound (creator : list JS.Val -> Act).

(** The fields of a [ConnectedComponent] instance. *)
Record Instance : Type := {
  props : gmap string PropVal;
  state : gmap string PropVal;
  cancelSubscription : nat;
  actions : gmap string PropVal
}.

Definition World : Type := Redux.Store State Instance * Instance.

(** A React element: the component to instantiate and its props. *)
Record Element : Type := { component : Comp; attributes : gmap string PropVal }.

(** [{...target, ...source}]: the keys of [source] override. *)
Definition spread (target source : gmap string PropVal) : gmap string PropVal :=
  source ∪ target.

(** React's [this.setState(partial)]: a shallow merge into [this.state]. *)
Definition setState (partial : gmap string PropVal) (this : Instance) : Instance :=
  {| props := props this;
     state := spread (state this) partial;
     cancelSubscription := cancelSubscription this;
     actions := actions this |}.

(** [connect(ComponentToConnect, mapState, actionsToDispatch)] *)
Variable ComponentToConnect : Comp.
Variable mapState : State -> gmap string PropVal.
Variable actionsToDispatch : gmap string (list JS.Val -> Act).

(** [() => { this.setState(mapState(store.getState())); }] *)
Definition listener : Redux.Listener (State := State) (Env := Instance) :=
  fun s this => setState (mapState s) this.

(** [Object.keys(actionsToDispatch).forEach(action => { this.actions[action] = ... })] *)
Definition bindActions : gmap string PropVal :=
  foldl (fun acc entry => <[fst entry := PBound (snd entry)]> acc) ∅
        (map_to_list actionsToDispatch).

(** [constructor(props, context)]: the store is taken from [context]; when
    [context.store] is no store, [store.getState()] throws. *)
Definition constructor (props context : gmap string PropVal)
           (store : Redux.Store State Instance) : Result World :=
  match context !! "store" with
  | Some PStore =>
      let initial := mapState (Redux.getState store) in
      let sub := Redux.subscribe listener store in
      Ok (fst sub,
          {| props := props;
             state := initial;
             cancelSubscription := snd sub;
             actions := bindActions |})
  | _ => TypeError
  end.

(** [componentWillUnmount() { this.cancelSubscription(); }] *)
Definition componentWillUnmount (w : World) : World :=
  (Redux.unsubscribe (cancelSubscription (snd w)) (fst w), snd w).

(** [render() { return <ComponentToConnect {...this.props} {...this.state}
    {...this.actions} />; }] *)
Definition render (this : Instance) : Element :=
  {| component := ComponentToConnect;
     attributes := spread (spread (spread ∅ (props this)) (state this)) (actions this) |}.

(** Calling a prop of the wrapped component with [args]. *)
Definition call (f : option PropVal) (args : list JS.Val) (w : World) : Result World :=
  match f with
  | Some (PBound creator) => Ok (Redux.dispatch reducer (creator args) w)
  | _ => TypeError
  end.

(** [Provider]'s [getChildContext() { return { store: this.store }; }] with
    [this.store = props.store]. *)
Definition getChildContext (providerProps : gmap string PropVal) : gmap string PropVal :=
  match providerProps !! "store" with
  | Some v => {["store" := v]}
  | None => ∅
  end.

(** The component's listener is the store's one listener. *)
Definition attached (w : World) : Prop :=
  exists h, Redux.currentListeners (fst w) = [(h, listener)].

(** The derived props of a mounted component and the state of its store. *)
Definition derived (w : World) : gmap string PropVal := state (snd w).
Definition storeState (w : World) : State := Redux.getState (fst w).

End Connector.

Arguments PVal {Act} v.
Arguments PStore {Act}.

(** A store nobody has subscribed to yet, holding [s]. *)
Definition storeAt {State Env : Type} (s : State) : Redux.Store State Env :=
  {| Redux.currentState := s; Redux.currentListeners := []; Redux.nextHandle := 0 |}.

End Connect.

(** ** The editor wired through [connect] *)

Module Editor.

Import Connect.

(** The presentation component is opaque to the connector. *)
Inductive Comp : Type := View.

(** Modelled from the spec: [removeCharacter] is exported by ./store, which
    is not part of the sources; the specification has it build the backspace
    action, which carries no payload. *)
Definition removeCharacter (args : list JS.Val) : Action :=
  {| type := "BACKSPACE"; char := JS.VUndefined |}.

(** [insertCharacter] called with an argument list: [char] is the first
    argument, [undefined] when there is none. *)
Definition insertCharacter' (args : list JS.Val) : Action :=
  insertCharacter (match args with v :: _ => v | [] => JS.VUndefined end).

(** [state => ({ text: state })] *)
Definition mapState (s : string) : gmap string (PropVal (Act := Action)) :=
  {["text" := PVal (JS.VString s)]}.

(** [{ insertCharacter, removeCharacter }] *)
Definition actionsToDispatch : gmap string (list JS.Val -> Action) :=
  <["removeCharacter" := removeCharacter]> {["insertCharacter" := insertCharacter']}.

Definition store : Redux.Store string (Instance (Act := Action)) :=
  Redux.createStore reducer INIT.

(** [render(<ConnectedComponent store={store} />, root)]: the store is handed
    over as a prop, and no [Provider] supplies a context. *)
Definition mountWithStoreProp : Result (World (State := string) (Act := Action)) :=
  constructor mapState actionsToDispatch {["store" := PStore]} ∅ store.

(** [render(<Provider store={store}><ConnectedComponent /></Provider>, root)] *)
Definition mountUnderProvider : Result (World (State := string) (Act := Action)) :=
  constructor mapState actionsToDispatch ∅ (getChildContext {["store" := PStore]}) store.

(** A selector whose keys depend on the state: a placeholder while the
    text is empty, the text once there is some. *)
Definition placeholderSelector (s : string) : gmap string (PropVal (Act := Action)) :=
  if String.eqb s "" then {["placeholder" := PVal (JS.VString "(type something)")]}
  else {["text" := PVal (JS.VString s)]}.

End Editor.

(** ** The interval callback that stands for the user (basic.js) *)

Module Timer.
Section Timer.

Context {Env : Type}.

(** [const userInput = `...`] *)
Variable userInput : string.

(** [let index = 0; let nextIsRandom = false;] and whether [clearInterval]
    was called. *)
Record Driver : Type := { index : nat; nextIsRandom : bool; cleared : bool }.

Definition start : Driver := {| index := 0; nextIsRandom := false; cleared := false |}.

(** The callback handed to [setInterval]. *)
Definition callback (dw : Driver * (Redux.Store string Env * Env))
  : Driver * (Redux.Store string Env * Env) :=
  let d := fst dw in
  if Nat.ltb (index d) (String.length userInput) then
    if nextIsRandom d then
      ({| index := index d; nextIsRandom := false; cleared := cleared d |},
       Redux.dispatch reducer {| type := "RANDOM"; char := JS.VUndefined |} (snd dw))
    else
      let c := match String.get (index d) userInput with
               | Some c => JS.VString (String c EmptyString)
               | None => JS.VUndefined
               end in
      ({| index := S (index d);
          nextIsRandom := Nat.eqb (S (index d) mod 5) 0;
          cleared := cleared d |},
       Redux.dispatch reducer (insertCharacter c) (snd dw))
  else
    ({| index := index d; nextIsRandom := nextIsRandom d; cleared := true |}, snd dw).

(** One period of the timer: the callback runs unless the interval was
    cleared. *)
Definition fire (dw : Driver * (Redux.Store string Env * Env))
  : Driver * (Redux.Store string Env * Env) :=
  if cleared (fst dw) then dw else callback dw.

Fixpoint fires (n : nat) (dw : Driver * (Redux.Store string Env * Env))
  : Driver * (Redux.Store string Env * Env) :=
  match n with
  | O => dw
  | S n' => fires n' (fire dw)
  end.

(** The first callback of the tutorial, before any RANDOM action was added:
    [if (index < userInput.length) { store.dispatch(insertCharacter(
    userInput[index++])); } else { clearInterval(interval); }] *)
Record PlainDriver : Type := { plainIndex : nat; plainCleared : bool }.

Definition plainStart : PlainDriver := {| plainIndex := 0; plainCleared := false |}.

Definition plainCallback (dw : PlainDriver * (Redux.Store string Env * Env))
  : PlainDriver * (Redux.Store string Env * Env) :=
  let d := fst dw in
  if Nat.ltb (plainIndex d) (String.length userInput) then
    let c := match String.get (plainIndex d) userInput with
             | Some c => JS.VString (String c EmptyString)
             | None => JS.VUndefined
             end in
    ({| plainIndex := S (plainIndex d); plainCleared := plainCleared d |},
     Redux.dispatch reducer (insertCharacter c) (snd dw))
  else
    ({| plainIndex := plainIndex d; plainCleared := true |}, snd dw).

Definition plainFire (dw : PlainDriver * (Redux.Store string Env * Env))
  : PlainDriver * (Redux.Store string Env * Env) :=
  if plainCleared (fst dw) then dw else plainCallback dw.

Fixpoint plainFires (n : nat) (dw : PlainDriver * (Redux.Store string Env * Env))
  : PlainDriver * (Redux.Store string Env * Env) :=
  match n with
  | O => dw
  | S n' => plainFires n' (plainFire dw)
  end.

End Timer.

(** The actions a whole run dispatches, read off the callback: the code
    units from position [i] on, with a RANDOM action after each position that
    is a multiple of five and is not the end of the input. *)
Fixpoint script (rest : list ascii) (i : nat) : list Action :=
  match rest with
  | [] => []
  | c :: rest' =>
      insertCharacter (JS.VString (String c EmptyString))
        :: (if Nat.eqb (S i mod 5) 0 && negb (Nat.eqb (List.length rest') 0)
            then [{| type := "RANDOM"; char := JS.VUndefined |}] else [])
        ++ script rest' (S i)
  end.

(** The non-empty prefixes of [s ++ rest] that extend [s], shortest first. *)
Fixpoint prefixes (s : string) (rest : list ascii) : list string :=
  match rest with
  | [] => []
  | c :: rest' => (s +:+ String c EmptyString) :: prefixes (s +:+ String c EmptyString) rest'
  end.

(** The same, with the prefix that ends at a multiple of five listed twice
    unless it is the whole input. *)
Fixpoint prefixes_with_repeats (s : string) (rest : list ascii) (i : nat) : list string :=
  match rest with
  | [] => []
  | c :: rest' =>
      (s +:+ String c EmptyString)
        :: (if Nat.eqb (S i mod 5) 0 && negb (Nat.eqb (List.length rest') 0)
            then [s +:+ String c EmptyString] else [])
        ++ prefixes_with_repeats (s +:+ String c EmptyString) rest' (S i)
  end.

End Timer.

(** ** What the React views put on screen *)

Module Dom.

Inductive StyleVal : Type :=
| SStr (s : string)
| SNum (n : Z).

(** The elements the views return: a [div] with its style and its one
    child, or a text. *)
Inductive VNode : Type :=
| Div (style : list (string * StyleVal)) (child : VNode)
| Text (s : string).

Fixpoint textContent (node : VNode) : string :=
  match node with
  | Div _ child => textContent child
  | Text s => s
  end.

(** The body of [View]'s [render()], the same in view.js and in the connected
    entry points, for the [text] it reads from its state or its props. *)
Definition render (text : string) : VNode :=
  Div [("alignItems", SStr "center"); ("display", SStr "flex");
       ("fontSize", SStr "4em"); ("height", SStr "100%");
       ("justifyContent", SStr "center"); ("textAlign", SStr "center");
       ("width", SStr "100%")]
      (if negb (Z.eqb (JS.length text) 0) then
         Div [("width", SNum 720); ("wordWrap", SStr "break-word")] (Text text)
       else
         Div [("color", SStr "lightgray")] (Text "(type something)")).

End Dom.

(** ** The view that talks to the store itself (react/view.js) *)

Module StoreView.

Import Connect.

(** [this.state.text], [this.cancelSubscription], and whether
    [this.onCharacter] is registered for keyup on the document. *)
Record Instance : Type := { text : string; cancelSubscription : nat; listening : bool }.

Definition World : Type := Redux.Store string Instance * Instance.

(** [() => { this.setState({ text: store.getState() }); }] *)
Definition listener : Redux.Listener (State := string) (Env := Instance) :=
  fun s this =>
    {| text := s; cancelSubscription := cancelSubscription this; listening := listening this |}.

(** [constructor(props)]: the store is taken from [props]. *)
Definition constructor (props : gmap string (PropVal (Act := Action)))
           (store : Redux.Store string Instance) : Result World :=
  match props !! "store" with
  | Some PStore =>
      let sub := Redux.subscribe listener store in
      Ok (fst sub,
          {| text := Redux.getState store; cancelSubscription := snd sub; listening := true |})
  | _ => TypeError
  end.

(** [onCharacter(event)], given [event.key]. *)
Definition onCharacter (key : string) (w : World) : World :=
  if String.eqb key "Backspace" then
    Redux.dispatch reducer (Editor.removeCharacter []) w
  else if Z.eqb (JS.length key) 1 then
    Redux.dispatch reducer (insertCharacter (JS.VString key)) w
  else w.

(** A keyup event on the document reaches [onCharacter] while it is
    registered. *)
Definition keyup (key : string) (w : World) : World :=
  if listening (snd w) then onCharacter key w else w.

(** [componentWillUnmount()]: unregister from the document, then cancel the
    subscription. *)
Definition componentWillUnmount (w : World) : World :=
  (Redux.unsubscribe (cancelSubscription (snd w)) (fst w),
   {| text := text (snd w); cancelSubscription := cancelSubscription (snd w);
      listening := false |}).

Definition keyups (keys : list string) (w : World) : World :=
  foldl (fun w key => keyup key w) w keys.

(** [render()] reads [this.state.text]. *)
Definition render (this : Instance) : Dom.VNode := Dom.render (text this).

(** [render(<View store={store} />, root)] *)
Definition mount : Result World :=
  constructor {["store" := PStore]} (Redux.createStore reducer INIT).

End StoreView.

(** ** The view under the connector (the connected entry points) *)

Module ConnectedView.

Import Connect.

(** [onCharacter(event)]: the view calls the props it was rendered with. *)
Definition onCharacter (props : gmap string (PropVal (Act := Action))) (key : string)
           (w : World (State := string) (Act := Action))
  : Result (World (State := string) (Act := Action)) :=
  if String.eqb key "Backspace" then
    call reducer (props !! "removeCharacter") [] w
  else if Z.eqb (JS.length key) 1 then
    call reducer (props !! "insertCharacter") [JS.VString key] w
  else Ok w.

(** A keyup event: the view's props are those of the element its parent
    rendered last. *)
Definition keyup (key : string) (w : World (State := string) (Act := Action))
  : Result (World (State := string) (Act := Action)) :=
  onCharacter (attributes (Connect.render Editor.View (snd w))) key w.

(** A sequence of keyup events, stopping at the first that throws. *)
Fixpoint keyups (keys : list string) (w : World (State := string) (Act := Action))
  : Result (World (State := string) (Act := Action)) :=
  match keys with
  | [] => Ok w
  | key :: rest =>
      match keyup key w with
      | Ok w' => keyups rest w'
      | TypeError => TypeError
      end
  end.

End ConnectedView.

(** ** Key presses, in the words of the keyboard contract *)

Module Keys.

(** The action a key press stands for: Backspace removes, a key of one code
    unit types it, any other key does nothing. *)
Definition action (key : string) : option Action :=
  if String.eqb key "Backspace" then Some (Editor.removeCharacter [])
  else if Nat.eqb (String.length key) 1 then Some (insertCharacter (JS.VString key))
  else None.

Definition actions (keys : list string) : list Action :=
  omap action keys.

End Keys.

(** ** The build configuration (rollup.config.js) *)

Module Rollup.

(** [/pattern/.test(str)] for a pattern without special characters: [pattern]
    occurs somewhere in [str]. *)
Fixpoint occurs (pattern str : string) : bool :=
  String.prefix pattern str
  || match str with
     | EmptyString => false
     | String _ rest => occurs pattern rest
     end.

(** [onwarn(str) { if (!/Treating/.test(str)) { console.error(str); } }] *)
Definition onwarn (str : string) (stderr : list string) : list string :=
  if negb (occurs "Treating" str) then stderr ++ [str] else stderr.

End Rollup.

(** ** Recognised actions *)

(** The action types the reducer's [switch] has a case for. *)
Definition recognised (a : Action) : bool :=
  String.eqb (type a) "CHARACTER_TYPED" || String.eqb (type a) "BACKSPACE".

(** * Properties *)

(** ** Strings *)

Lemma list_ascii_of_string_app (s t : string) :
  list_ascii_of_string (s +:+ t) = list_ascii_of_string s ++ list_ascii_of_string t.
Proof. induction s as [|c s IH]; simpl; [reflexivity | by rewrite IH]. Qed.

Lemma substring_all_but_last (s : string) :
  list_ascii_of_string (String.substring 0 (Nat.pred (String.length s)) s)
  = removelast (list_ascii_of_string s).
Proof.
  induction s as [|c s IH]; simpl; [reflexivity|].
  destruct s as [|c' s]; simpl in *; [reflexivity|].
  by rewrite IH.
Qed.

(** [state.substr(0, state.length - 1)] takes the whole string but its last
    code unit; on the empty string the length argument is [-1], which is
    clamped to [0]. *)
Lemma substr_all_but_last (s : string) :
  JS.substr s 0 (JS.length s - 1)%Z
  = String.substring 0 (Nat.pred (String.length s)) s.
Proof.
  unfold JS.substr, JS.length. cbv zeta.
  change (0 <? 0)%Z with false. cbv iota.
  generalize (String.length s). intros n. f_equal.
  - lia.
  - destruct n; [reflexivity|]. simpl Nat.pred. lia.
Qed.

Lemma quoted_inj (s t : string) : JS.quoted s = JS.quoted t -> s = t.
Proof.
  unfold JS.quoted. intros H.
  apply (f_equal list_ascii_of_string) in H.
  rewrite !list_ascii_of_string_app in H.
  apply app_inv_head, app_inv_tail in H.
  rewrite <- (string_of_list_ascii_of_string s), H.
  apply string_of_list_ascii_of_string.
Qed.

Lemma quoted_eqb (s t : string) :
  String.eqb (JS.quoted s) (JS.quoted t) = String.eqb s t.
Proof.
  destruct (String.eqb_spec s t) as [->|Hne].
  - apply String.eqb_refl.
  - apply String.eqb_neq. intros H. by apply quoted_inj in H.
Qed.

(** ** The reducer *)

Lemma reducer_CHARACTER_TYPED (s : string) (a : Action) :
  type a = "CHARACTER_TYPED" -> reducer (Some s) a = s +:+ JS.ToString (char a).
Proof. intros H. unfold reducer. by rewrite H. Qed.

Lemma reducer_BACKSPACE (s : string) (a : Action) :
  type a = "BACKSPACE" ->
  reducer (Some s) a = String.substring 0 (Nat.pred (String.length s)) s.
Proof. intros H. unfold reducer. rewrite H. simpl. apply substr_all_but_last. Qed.

Lemma reducer_edit (s : string) (a : Action) :
  type a = "CHARACTER_TYPED" \/ type a = "BACKSPACE" ->
  list_ascii_of_string (reducer (Some s) a) = Spec.edit (list_ascii_of_string s) a.
Proof.
  intros [H|H]; unfold Spec.edit; rewrite H; simpl.
  - by rewrite reducer_CHARACTER_TYPED, list_ascii_of_string_app.
  - by rewrite reducer_BACKSPACE, substring_all_but_last.
Qed.

Lemma fold_reducer_edit (actions : list Action) (s : string) :
  Forall (fun a => type a = "CHARACTER_TYPED" \/ type a = "BACKSPACE") actions ->
  list_ascii_of_string (foldl (fun s a => reducer (Some s) a) s actions)
  = foldl Spec.edit (list_ascii_of_string s) actions.
Proof.
  intros Hall. revert s.
  induction Hall as [|a actions Ha _ IH]; intros s; simpl; [reflexivity|].
  by rewrite IH, reducer_edit.
Qed.

(** C2: folding the reducer from the empty string over actions of type
    CHARACTER_TYPED or BACKSPACE only gives the net effect of the edits: each
    CHARACTER_TYPED appends its character and each BACKSPACE deletes the last
    one; typing a, typing b and a backspace leave "a". *)
Theorem reducer_fold_net_effect (actions : list Action) :
  Forall (fun a => type a = "CHARACTER_TYPED" \/ type a = "BACKSPACE") actions ->
  foldl (fun s a => reducer (Some s) a) "" actions
  = string_of_list_ascii (Spec.net_effect actions)
  /\ foldl (fun s a => reducer (Some s) a) ""
       [insertCharacter (JS.VString "a"); insertCharacter (JS.VString "b");
        {| type := "BACKSPACE"; char := JS.VUndefined |}] = "a".
Proof.
  intros Hall. split; [|reflexivity].
  unfold Spec.net_effect.
  change [] with (list_ascii_of_string "").
  rewrite <- fold_reducer_edit by assumption.
  by rewrite string_of_list_ascii_of_string.
Qed.

Lemma reducer_fold_net_effect_witness :
  foldl (fun s a => reducer (Some s) a) ""
    [insertCharacter (JS.VString "H"); {| type := "BACKSPACE"; char := JS.VUndefined |};
     {| type := "BACKSPACE"; char := JS.VUndefined |}; insertCharacter (JS.VString "i")]
  = string_of_list_ascii
      (Spec.net_effect
         [insertCharacter (JS.VString "H"); {| type := "BACKSPACE"; char := JS.VUndefined |};
          {| type := "BACKSPACE"; char := JS.VUndefined |}; insertCharacter (JS.VString "i")]).
Proof.
  refine (proj1 (reducer_fold_net_effect
           [insertCharacter (JS.VString "H"); {| type := "BACKSPACE"; char := JS.VUndefined |};
            {| type := "BACKSPACE"; char := JS.VUndefined |}; insertCharacter (JS.VString "i")] _)).
  repeat (apply List.Forall_cons; [(left; reflexivity) || (right; reflexivity)|]).
  apply List.Forall_nil.
Defined.

(** C3: on an action whose type is neither CHARACTER_TYPED nor BACKSPACE the
    reducer returns the state it was given. *)
Theorem reducer_unknown_identity (s : string) (a : Action) :
  type a <> "CHARACTER_TYPED" -> type a <> "BACKSPACE" -> reducer (Some s) a = s.
Proof.
  intros H1 H2. unfold reducer.
  apply String.eqb_neq in H1, H2. by rewrite H1, H2.
Qed.

Lemma reducer_unknown_identity_witness :
  reducer (Some "some text") {| type := "RANDOM"; char := JS.VUndefined |} = "some text".
Proof. apply reducer_unknown_identity; simpl; discriminate. Defined.

(** C8: a BACKSPACE on the empty string gives the empty string, whatever
    else the action carries, and so does one on the state not yet set. *)
Theorem reducer_backspace_empty (payload : JS.Val) :
  reducer (Some "") {| type := "BACKSPACE"; char := payload |} = ""
  /\ reducer None {| type := "BACKSPACE"; char := payload |} = "".
Proof. split; reflexivity. Qed.

(** ** The store *)

Section StoreFacts.

Context {State Act Env : Type}.
Variable reducer : option State -> Act -> State.

Lemma getState_dispatch (a : Act) (w : Redux.Store State Env * Env) :
  Redux.getState (fst (Redux.dispatch reducer a w))
  = reducer (Some (Redux.getState (fst w))) a.
Proof. reflexivity. Qed.

Lemma listeners_dispatch (a : Act) (w : Redux.Store State Env * Env) :
  Redux.currentListeners (fst (Redux.dispatch reducer a w))
  = Redux.currentListeners (fst w).
Proof. reflexivity. Qed.

Lemma listeners_dispatches (actions : list Act) (w : Redux.Store State Env * Env) :
  Redux.currentListeners (fst (Redux.dispatches reducer actions w))
  = Redux.currentListeners (fst w).
Proof.
  revert w. induction actions as [|a actions IH]; intros w; [reflexivity|].
  unfold Redux.dispatches in *. simpl. by rewrite IH.
Qed.

Lemma dispatches_snoc (actions : list Act) (a : Act) (w : Redux.Store State Env * Env) :
  Redux.dispatches reducer (actions ++ [a]) w
  = Redux.dispatch reducer a (Redux.dispatches reducer actions w).
Proof. unfold Redux.dispatches. by rewrite foldl_app. Qed.

(** With one listener registered, a dispatch runs it once on the new state. *)
Lemma dispatch_one_listener (a : Act) (w : Redux.Store State Env * Env) h l :
  Redux.currentListeners (fst w) = [(h, l)] ->
  snd (Redux.dispatch reducer a w)
  = l (reducer (Some (Redux.getState (fst w))) a) (snd w).
Proof. intros H. unfold Redux.dispatch, Redux.notify. simpl. by rewrite H. Qed.

End StoreFacts.

(** ** The console renderers *)

Lemma rendered_from_prev (p : string) (l : list string) :
  Spec.remove_consecutive_duplicates (p :: l) = p :: Basic.rendered (Some p) l.
Proof.
  revert p. induction l as [|y l IH]; intros p; [reflexivity|].
  change (Spec.remove_consecutive_duplicates (p :: y :: l))
    with (if String.eqb p y then Spec.remove_consecutive_duplicates (y :: l)
          else p :: Spec.remove_consecutive_duplicates (y :: l)).
  rewrite IH. simpl.
  destruct (String.eqb_spec p y) as [->|Hne]; reflexivity.
Qed.

Lemma rendered_from_undefined (l : list string) :
  Basic.rendered None l = Spec.remove_consecutive_duplicates l.
Proof. destruct l as [|x l]; [reflexivity|]. by rewrite rendered_from_prev. Qed.

Lemma remove_consecutive_duplicates_quoted (l : list string) :
  Spec.remove_consecutive_duplicates (map JS.quoted l)
  = map JS.quoted (Spec.remove_consecutive_duplicates l).
Proof.
  induction l as [|x l IH]; [reflexivity|].
  destruct l as [|y l]; [reflexivity|].
  change (Spec.remove_consecutive_duplicates (map JS.quoted (x :: y :: l)))
    with (if String.eqb (JS.quoted x) (JS.quoted y)
          then Spec.remove_consecutive_duplicates (map JS.quoted (y :: l))
          else JS.quoted x :: Spec.remove_consecutive_duplicates (map JS.quoted (y :: l))).
  change (Spec.remove_consecutive_duplicates (x :: y :: l))
    with (if String.eqb x y then Spec.remove_consecutive_duplicates (y :: l)
          else x :: Spec.remove_consecutive_duplicates (y :: l)).
  rewrite quoted_eqb, IH. by destruct (String.eqb x y).
Qed.

Module BasicFacts.

Import Basic.

Lemma wired_boot : wired boot.
Proof. by exists 0. Qed.

Lemma wired_dispatch a w : wired w -> wired (Redux.dispatch reducer a w).
Proof. intros [h H]. exists h. by rewrite listeners_dispatch. Qed.

Lemma wired_run actions : wired (run actions).
Proof.
  destruct wired_boot as [h H]. exists h.
  unfold run. by rewrite listeners_dispatches.
Qed.

Lemma globals_dispatch a w :
  wired w ->
  snd (Redux.dispatch reducer a w) = render (reducer (Some (state w)) a) (snd w).
Proof. intros [h H]. by apply dispatch_one_listener with h. Qed.

Lemma prevText_render s g : prevText (render s g) = Some s.
Proof.
  unfold render, JS.strict_neq.
  destruct (prevText g) as [p|] eqn:Hp; [|reflexivity].
  destruct (String.eqb_spec p s) as [->|Hne]; simpl; [assumption | reflexivity].
Qed.

Lemma console_render s g :
  console (render s g)
  = if JS.strict_neq (prevText g) s then console g ++ [JS.quoted s] else console g.
Proof. unfold render. by destruct (JS.strict_neq (prevText g) s). Qed.

(** Once a dispatch went through, [prevText] holds the store's state. *)
Lemma prevText_run actions :
  actions <> [] -> prevText (snd (run actions)) = Some (state (run actions)).
Proof.
  destruct actions as [|a actions] using rev_ind; [congruence|]. intros _.
  unfold run. rewrite dispatches_snoc.
  rewrite globals_dispatch by apply wired_run.
  by rewrite prevText_render.
Qed.

Lemma state_dispatches actions w :
  state (Redux.dispatches reducer actions w)
  = foldl (fun s a => reducer (Some s) a) (state w) actions.
Proof.
  revert w. induction actions as [|a actions IH]; intros w; [reflexivity|].
  unfold Redux.dispatches in *. simpl. by rewrite IH.
Qed.

(** The console after a run: what was there, then each state [render] let
    through. *)
Lemma lines_dispatches actions w :
  wired w ->
  lines (Redux.dispatches reducer actions w)
  = lines w ++ map JS.quoted (rendered (prevText (snd w)) (trace (state w) actions)).
Proof.
  revert w. induction actions as [|a actions IH]; intros w Hw.
  - simpl. by rewrite app_nil_r.
  - change (Redux.dispatches reducer (a :: actions) w)
      with (Redux.dispatches reducer actions (Redux.dispatch reducer a w)).
    rewrite IH by by apply wired_dispatch.
    unfold lines at 1. rewrite (globals_dispatch a w Hw).
    rewrite prevText_render, console_render.
    change (state (Redux.dispatch reducer a w)) with (reducer (Some (state w)) a).
    simpl trace. simpl rendered.
    destruct (JS.strict_neq (prevText (snd w)) (reducer (Some (state w)) a)) eqn:E.
    + unfold lines. by rewrite <- app_assoc.
    + unfold lines. do 3 f_equal.
      unfold JS.strict_neq in E. destruct (prevText (snd w)) as [p|]; [|discriminate].
      apply negb_false_iff, String.eqb_eq in E. by subst.
Qed.

Lemma lines_run actions :
  lines (run actions)
  = map JS.quoted (Spec.remove_consecutive_duplicates (trace "" actions)).
Proof.
  unfold run. rewrite lines_dispatches by apply wired_boot.
  simpl. by rewrite rendered_from_undefined.
Qed.

End BasicFacts.

(** The output of basic.js: every prefix of the input once, the RANDOM
    actions in between leaving no trace. *)
Example basic_output_first_steps :
  Basic.lines (snd (Basic.ticks 7 {| Basic.index := 0; Basic.nextIsRandom := false |} Basic.boot))
  = map JS.quoted ["T"; "Th"; "Thi"; "This"; "This "; "This i"].
Proof. reflexivity. Qed.

Lemma naive_console_dispatches (actions : list Action) w :
  (exists h, Redux.currentListeners (fst w) = [(h, Naive.render)]) ->
  Naive.console (Redux.dispatches reducer actions w)
  = Naive.console w ++ map JS.quoted (Basic.trace (Redux.getState (fst w)) actions).
Proof.
  revert w. induction actions as [|a actions IH]; intros w [h Hw].
  - simpl. by rewrite app_nil_r.
  - change (Redux.dispatches reducer (a :: actions) w)
      with (Redux.dispatches reducer actions (Redux.dispatch reducer a w)).
    rewrite IH by (exists h; by rewrite listeners_dispatch).
    unfold Naive.console at 1.
    rewrite (dispatch_one_listener reducer a w h Naive.render Hw).
    rewrite getState_dispatch. unfold Naive.render, Naive.View, Naive.console.
    simpl. by rewrite <- app_assoc.
Qed.

Lemma naive_console_run (actions : list Action) :
  Naive.console (Naive.run actions) = map JS.quoted (Basic.trace "" actions).
Proof.
  unfold Naive.run. rewrite naive_console_dispatches by by exists 0.
  reflexivity.
Qed.

(** C1: the change-detecting renderer calls [View] once for each run of equal
    consecutive states: the console holds the states the dispatches produced
    with repeats collapsed; a dispatch that changes the state adds exactly one
    line, a dispatch that leaves the state of the previous dispatch adds none;
    typing a and then dispatching an unknown action prints once. *)
Theorem change_detecting_render_once_per_value (actions : list Action) (a : Action) :
  Basic.lines (Basic.run actions)
  = map JS.quoted (Spec.remove_consecutive_duplicates (Basic.trace "" actions))
  /\ (Basic.state (Basic.run (actions ++ [a])) <> Basic.state (Basic.run actions) ->
      Basic.lines (Basic.run (actions ++ [a]))
      = Basic.lines (Basic.run actions) ++ [JS.quoted (Basic.state (Basic.run (actions ++ [a])))])
  /\ (actions <> [] ->
      Basic.state (Basic.run (actions ++ [a])) = Basic.state (Basic.run actions) ->
      Basic.lines (Basic.run (actions ++ [a])) = Basic.lines (Basic.run actions))
  /\ Basic.lines (Basic.run [insertCharacter (JS.VString "a");
                             {| type := "UNKNOWN"; char := JS.VUndefined |}])
     = [JS.quoted "a"].
Proof.
  split; [apply BasicFacts.lines_run|].
  assert (Hstep : Basic.lines (Basic.run (actions ++ [a]))
                  = if JS.strict_neq (Basic.prevText (snd (Basic.run actions)))
                         (Basic.state (Basic.run (actions ++ [a])))
                    then Basic.lines (Basic.run actions)
                           ++ [JS.quoted (Basic.state (Basic.run (actions ++ [a])))]
                    else Basic.lines (Basic.run actions)).
  { unfold Basic.run. rewrite dispatches_snoc.
    unfold Basic.lines at 1.
    rewrite BasicFacts.globals_dispatch by apply BasicFacts.wired_run.
    by rewrite BasicFacts.console_render. }
  split; [|split; [|reflexivity]].
  - intros Hne. rewrite Hstep.
    destruct (decide (actions = [])) as [->|Hnil]; [reflexivity|].
    rewrite BasicFacts.prevText_run by assumption. unfold JS.strict_neq.
    destruct (String.eqb_spec (Basic.state (Basic.run actions))
                (Basic.state (Basic.run (actions ++ [a])))) as [E|E];
      [congruence | reflexivity].
  - intros Hnil Heq. rewrite Hstep, Heq.
    rewrite BasicFacts.prevText_run by assumption. unfold JS.strict_neq.
    by rewrite String.eqb_refl.
Qed.

Lemma change_detecting_render_once_per_value_witness :
  Basic.lines (Basic.run ([insertCharacter (JS.VString "a")]
                            ++ [insertCharacter (JS.VString "b")]))
  = Basic.lines (Basic.run [insertCharacter (JS.VString "a")]) ++ [JS.quoted "ab"]
  /\ Basic.lines (Basic.run ([insertCharacter (JS.VString "a")]
                               ++ [{| type := "RANDOM"; char := JS.VUndefined |}]))
     = Basic.lines (Basic.run [insertCharacter (JS.VString "a")]).
Proof.
  split.
  - apply (proj1 (proj2 (change_detecting_render_once_per_value
                           [insertCharacter (JS.VString "a")]
                           (insertCharacter (JS.VString "b"))))).
    vm_compute. discriminate.
  - apply (proj1 (proj2 (proj2 (change_detecting_render_once_per_value
                                  [insertCharacter (JS.VString "a")]
                                  {| type := "RANDOM"; char := JS.VUndefined |})))).
    + discriminate.
    + reflexivity.
Defined.

(** C4: what the change-detecting renderer prints is what the naive renderer
    prints with consecutive duplicates removed. *)
Theorem change_detecting_refines_naive (actions : list Action) :
  Basic.lines (Basic.run actions)
  = Spec.remove_consecutive_duplicates (Naive.console (Naive.run actions)).
Proof.
  rewrite BasicFacts.lines_run, naive_console_run.
  by rewrite remove_consecutive_duplicates_quoted.
Qed.

(** C9: [prevText] starts out undefined, which differs from every string, so
    the first notification always reaches [View]; when the first action is
    unrecognized, [View] is called once with the empty string. *)
Theorem first_notification_always_renders (a : Action) :
  Basic.prevText (snd Basic.boot) = None
  /\ (forall text, JS.strict_neq None text = true)
  /\ Basic.lines (Basic.run [a]) = [JS.quoted (reducer (Some "") a)]
  /\ (type a <> "CHARACTER_TYPED" -> type a <> "BACKSPACE" ->
      Basic.lines (Basic.run [a]) = [JS.quoted ""]).
Proof.
  assert (H : Basic.lines (Basic.run [a]) = [JS.quoted (reducer (Some "") a)])
    by reflexivity.
  repeat split; try assumption.
  intros H1 H2. rewrite H. unfold reducer.
  apply String.eqb_neq in H1, H2. by rewrite H1, H2.
Qed.

Lemma first_notification_always_renders_witness :
  Basic.lines (Basic.run [{| type := "RANDOM"; char := JS.VUndefined |}]) = [JS.quoted ""].
Proof.
  apply (proj2 (proj2 (proj2 (first_notification_always_renders
                                {| type := "RANDOM"; char := JS.VUndefined |}))));
    simpl; discriminate.
Defined.

(** ** The connector *)

Section ConnectFacts.

Context {State Act Comp : Type}.
Variable reducer : option State -> Act -> State.
Variable ComponentToConnect : Comp.
Variable mapState : State -> gmap string (Connect.PropVal (Act := Act)).
Variable actionsToDispatch : gmap string (list JS.Val -> Act).

Lemma foldl_bind_lookup (l : list (string * (list JS.Val -> Act)))
      (acc : gmap string (Connect.PropVal (Act := Act))) (k : string) :
  NoDup l.*1 ->
  foldl (fun acc entry => <[fst entry := Connect.PBound (snd entry)]> acc) acc l !! k
  = match (list_to_map l : gmap string _) !! k with
    | Some creator => Some (Connect.PBound creator)
    | None => acc !! k
    end.
Proof.
  revert acc. induction l as [|[k' c] l IH]; intros acc Hnd; [reflexivity|].
  apply NoDup_cons in Hnd as [Hk' Hnd]. simpl.
  rewrite IH by assumption.
  destruct (decide (k' = k)) as [->|Hne].
  - rewrite lookup_insert_eq.
    rewrite (not_elem_of_list_to_map_1 _ _ Hk').
    by rewrite lookup_insert_eq.
  - rewrite !lookup_insert_ne by assumption. reflexivity.
Qed.

(** The loop over [Object.keys] binds every creator under its own name. *)
Lemma bindActions_lookup (k : string) :
  Connect.bindActions actionsToDispatch !! k
  = Connect.PBound <$> actionsToDispatch !! k.
Proof.
  unfold Connect.bindActions.
  rewrite foldl_bind_lookup by apply NoDup_fst_map_to_list.
  rewrite list_to_map_to_list.
  destruct (actionsToDispatch !! k); [reflexivity | apply lookup_empty].
Qed.

Lemma constructor_with_context props context store :
  context !! "store" = Some Connect.PStore ->
  Connect.constructor mapState actionsToDispatch props context store
  = Connect.Ok
      (fst (Redux.subscribe (Connect.listener mapState) store),
       {| Connect.props := props;
          Connect.state := mapState (Redux.getState store);
          Connect.cancelSubscription := Redux.nextHandle store;
          Connect.actions := Connect.bindActions actionsToDispatch |}).
Proof. intros H. unfold Connect.constructor. by rewrite H. Qed.

Lemma constructor_without_context props context store :
  context !! "store" = None ->
  Connect.constructor mapState actionsToDispatch props context store = Connect.TypeError.
Proof. intros H. unfold Connect.constructor. by rewrite H. Qed.

Lemma attached_dispatch a w :
  Connect.attached mapState w -> Connect.attached mapState (Redux.dispatch reducer a w).
Proof. intros [h H]. exists h. by rewrite listeners_dispatch. Qed.

Lemma attached_dispatches actions w :
  Connect.attached mapState w ->
  Connect.attached mapState (Redux.dispatches reducer actions w).
Proof. intros [h H]. exists h. by rewrite listeners_dispatches. Qed.

(** A notification merges the new selection into the component's state and
    touches no other field. *)
Lemma instance_dispatch a w :
  Connect.attached mapState w ->
  snd (Redux.dispatch reducer a w)
  = Connect.setState (mapState (reducer (Some (Connect.storeState w)) a)) (snd w).
Proof. intros [h H]. by rewrite (dispatch_one_listener reducer a w h _ H). Qed.

Lemma derived_dispatch a w :
  Connect.attached mapState w ->
  Connect.derived (Redux.dispatch reducer a w)
  = Connect.spread (Connect.derived w)
      (mapState (Connect.storeState (Redux.dispatch reducer a w))).
Proof. intros H. unfold Connect.derived. by rewrite instance_dispatch. Qed.

Lemma fields_dispatches actions w :
  Connect.attached mapState w ->
  Connect.props (snd (Redux.dispatches reducer actions w)) = Connect.props (snd w)
  /\ Connect.actions (snd (Redux.dispatches reducer actions w)) = Connect.actions (snd w)
  /\ Connect.cancelSubscription (snd (Redux.dispatches reducer actions w))
     = Connect.cancelSubscription (snd w).
Proof.
  revert w. induction actions as [|a actions IH]; intros w Hw; [done|].
  change (Redux.dispatches reducer (a :: actions) w)
    with (Redux.dispatches reducer actions (Redux.dispatch reducer a w)).
  destruct (IH _ (attached_dispatch a w Hw)) as (-> & -> & ->).
  by rewrite instance_dispatch.
Qed.

(** After a dispatch, every key of the current selection carries its
    current value. *)
Lemma derived_covers_selection actions w k v :
  Connect.attached mapState w ->
  Connect.derived w = mapState (Connect.storeState w) ->
  mapState (Connect.storeState (Redux.dispatches reducer actions w)) !! k = Some v ->
  Connect.derived (Redux.dispatches reducer actions w) !! k = Some v.
Proof.
  intros Hw H0.
  destruct actions as [|a actions] using rev_ind;
    [change (Redux.dispatches reducer [] w) with w; by rewrite H0|].
  rewrite dispatches_snoc. intros Hk.
  rewrite derived_dispatch by by apply attached_dispatches.
  unfold Connect.spread. by apply lookup_union_Some_l.
Qed.

(** With a selector that always returns the same keys, nothing stale is
    left behind. *)
Lemma derived_equals_selection actions w :
  (forall s s', dom (mapState s) = dom (mapState s')) ->
  Connect.attached mapState w ->
  Connect.derived w = mapState (Connect.storeState w) ->
  Connect.derived (Redux.dispatches reducer actions w)
  = mapState (Connect.storeState (Redux.dispatches reducer actions w)).
Proof.
  intros Hdom Hw H0.
  induction actions as [|a actions IH] using rev_ind; [assumption|].
  rewrite dispatches_snoc.
  rewrite derived_dispatch by by apply attached_dispatches.
  rewrite IH. unfold Connect.spread.
  apply map_eq. intros k. rewrite lookup_union.
  destruct (mapState (Connect.storeState (Redux.dispatch reducer a
              (Redux.dispatches reducer actions w))) !! k) as [v|] eqn:E.
  - apply union_Some_l.
  - rewrite (left_id None _). apply not_elem_of_dom.
    rewrite (Hdom _ (Connect.storeState (Redux.dispatch reducer a
              (Redux.dispatches reducer actions w)))).
    by apply not_elem_of_dom.
Qed.

(** Teardown removes the component's registration: the store is left with
    no listener, and a later dispatch no longer reaches the component. *)
Lemma unmount_stops_updates props context s0 w0 a :
  Connect.constructor mapState actionsToDispatch props context (Connect.storeAt s0)
  = Connect.Ok w0 ->
  Redux.currentListeners (fst (Connect.componentWillUnmount w0)) = []
  /\ snd (Redux.dispatch reducer a (Connect.componentWillUnmount w0)) = snd w0
  /\ Connect.componentWillUnmount (Connect.componentWillUnmount w0)
     = Connect.componentWillUnmount w0.
Proof.
  unfold Connect.constructor.
  destruct (context !! "store") as [[| |]|]; try discriminate.
  intros [= <-]. unfold Connect.componentWillUnmount. simpl.
  done.
Qed.

(** What [render] hands to the wrapped component under a key. *)
Lemma render_lookup (this : Connect.Instance (Act := Act)) (k : string) :
  Connect.attributes (Connect.render ComponentToConnect this) !! k
  = match Connect.actions this !! k with
    | Some f => Some f
    | None => match Connect.state this !! k with
              | Some v => Some v
              | None => Connect.props this !! k
              end
    end.
Proof.
  unfold Connect.render, Connect.spread. simpl.
  rewrite !lookup_union, lookup_empty.
  destruct (Connect.actions this !! k), (Connect.state this !! k),
    (Connect.props this !! k); reflexivity.
Qed.

End ConnectFacts.

(** C5: mounting the connected component with the store as a prop and no
    provider above it, the way the props-threaded entry point does, throws
    before anything is read from the store: the constructor looks for the
    store in the context. Under a provider the same constructor succeeds and
    starts from the selection of the store's state. *)
Theorem store_prop_mount_throws {State Act : Type}
        (mapState : State -> gmap string (Connect.PropVal (Act := Act)))
        (actionsToDispatch : gmap string (list JS.Val -> Act))
        (props : gmap string (Connect.PropVal (Act := Act))) (s : State) :
  Connect.constructor mapState actionsToDispatch
    (<["store" := Connect.PStore]> props) ∅ (Connect.storeAt s) = Connect.TypeError
  /\ Editor.mountWithStoreProp = Connect.TypeError
  /\ exists w0, Editor.mountUnderProvider = Connect.Ok w0
                /\ Connect.derived w0 = Editor.mapState "".
Proof.
  split; [|split].
  - apply constructor_without_context, lookup_empty.
  - apply constructor_without_context, lookup_empty.
  - eexists. split.
    + unfold Editor.mountUnderProvider. apply constructor_with_context.
      unfold Connect.getChildContext. rewrite lookup_singleton_eq.
      apply lookup_singleton_eq.
    + reflexivity.
Qed.

(** C6, amended: right after mount the derived props are the selection of the
    store's state; each later dispatch merges the new selection into them, so
    every key of the current selection carries its current value, and the
    derived props are exactly the current selection whenever the selector
    returns the same keys for every state. *)
Theorem derived_props_follow_store {State Act : Type}
        (reducer : option State -> Act -> State)
        (mapState : State -> gmap string (Connect.PropVal (Act := Act)))
        (actionsToDispatch : gmap string (list JS.Val -> Act))
        (props context : gmap string (Connect.PropVal (Act := Act)))
        (s0 : State) (actions : list Act) :
  context !! "store" = Some Connect.PStore ->
  exists w0,
    Connect.constructor mapState actionsToDispatch props context (Connect.storeAt s0)
    = Connect.Ok w0
    /\ Connect.storeState w0 = s0
    /\ Connect.derived w0 = mapState s0
    /\ (forall a,
          Connect.derived (Redux.dispatch reducer a (Redux.dispatches reducer actions w0))
          = Connect.spread
              (Connect.derived (Redux.dispatches reducer actions w0))
              (mapState (Connect.storeState
                 (Redux.dispatch reducer a (Redux.dispatches reducer actions w0)))))
    /\ (forall k v,
          mapState (Connect.storeState (Redux.dispatches reducer actions w0)) !! k = Some v ->
          Connect.derived (Redux.dispatches reducer actions w0) !! k = Some v)
    /\ ((forall s s', dom (mapState s) = dom (mapState s')) ->
        Connect.derived (Redux.dispatches reducer actions w0)
        = mapState (Connect.storeState (Redux.dispatches reducer actions w0))).
Proof.
  intros Hctx. eexists. split; [by apply constructor_with_context|].
  match goal with |- Connect.storeState ?w = _ /\ _ =>
    assert (Hw : Connect.attached mapState w) by by exists 0 end.
  split; [reflexivity|]. split; [reflexivity|]. split; [|split].
  - intros a. apply derived_dispatch. by apply attached_dispatches.
  - intros k v. by apply derived_covers_selection.
  - intros Hdom. by apply derived_equals_selection.
Qed.

Lemma derived_props_follow_store_witness :
  exists w0,
    Editor.mountUnderProvider = Connect.Ok w0
    /\ Connect.derived (Redux.dispatches reducer [insertCharacter (JS.VString "a")] w0)
       = Editor.mapState
           (Connect.storeState
              (Redux.dispatches reducer [insertCharacter (JS.VString "a")] w0)).
Proof.
  destruct (derived_props_follow_store reducer Editor.mapState Editor.actionsToDispatch
              ∅ (Connect.getChildContext {["store" := Connect.PStore]}) ""
              [insertCharacter (JS.VString "a")])
    as (w0 & Hmount & _ & _ & _ & _ & Heq).
  - unfold Connect.getChildContext. rewrite lookup_singleton_eq.
    apply lookup_singleton_eq.
  - exists w0. split; [exact Hmount|].
    apply Heq. intros s s'. unfold Editor.mapState. by rewrite !dom_singleton_L.
Defined.

(** C6 as stated fails: with a selector whose keys depend on the state, the
    key of an earlier selection stays in the derived props after a dispatch. *)
Lemma derived_props_stale_key :
  exists w0,
    Connect.constructor Editor.placeholderSelector Editor.actionsToDispatch
      ∅ {["store" := Connect.PStore]} Editor.store = Connect.Ok w0
    /\ Connect.derived (Redux.dispatch reducer (insertCharacter (JS.VString "a")) w0)
       <> Editor.placeholderSelector
            (Connect.storeState
               (Redux.dispatch reducer (insertCharacter (JS.VString "a")) w0)).
Proof.
  eexists. split; [apply constructor_with_context, lookup_singleton_eq|].
  intros H. apply (f_equal (fun m => m !! "placeholder")) in H.
  revert H.
  change (Connect.storeState _) with "a".
  change (Connect.derived _) with
    (Connect.spread (Editor.placeholderSelector "") (Editor.placeholderSelector "a")).
  unfold Connect.spread, Editor.placeholderSelector. simpl.
  rewrite lookup_union_r by by apply lookup_singleton_ne.
  rewrite lookup_singleton_eq, lookup_singleton_ne by done.
  discriminate.
Qed.

(** C7: for every entry of the action bindings, the wrapped component gets
    under that name a callable that, called with any arguments, dispatches
    what the entry's action creator makes of them. End to end: typing H gives
    "H", a backspace gives the empty string, an unknown action leaves it, and
    the change-detecting renderer prints nothing for that last step. *)
Theorem bound_actions_dispatch {State Act Comp : Type}
        (reduce : option State -> Act -> State)
        (ComponentToConnect : Comp)
        (mapState : State -> gmap string (Connect.PropVal (Act := Act)))
        (actionsToDispatch : gmap string (list JS.Val -> Act))
        (props context : gmap string (Connect.PropVal (Act := Act)))
        (s0 : State) (actions : list Act)
        (name : string) (creator : list JS.Val -> Act) :
  context !! "store" = Some Connect.PStore ->
  actionsToDispatch !! name = Some creator ->
  (exists w0,
      Connect.constructor mapState actionsToDispatch props context (Connect.storeAt s0)
      = Connect.Ok w0
      /\ forall args,
          Connect.call reduce
            (Connect.attributes
               (Connect.render ComponentToConnect
                  (snd (Redux.dispatches reduce actions w0))) !! name)
            args (Redux.dispatches reduce actions w0)
          = Connect.Ok (Redux.dispatch reduce (creator args)
                          (Redux.dispatches reduce actions w0)))
  /\ (exists w0 w1 w2 : Connect.World (State := string) (Act := Action),
         Editor.mountUnderProvider = Connect.Ok w0
         /\ Connect.storeState w0 = ""
         /\ Connect.call reducer
              (Connect.attributes (Connect.render Editor.View (snd w0)) !! "insertCharacter")
              [JS.VString "H"] w0 = Connect.Ok w1
         /\ Connect.storeState w1 = "H"
         /\ Connect.call reducer
              (Connect.attributes (Connect.render Editor.View (snd w1)) !! "removeCharacter")
              [] w1 = Connect.Ok w2
         /\ Connect.storeState w2 = ""
         /\ Connect.storeState
              (Redux.dispatch reducer {| type := "UNKNOWN"; char := JS.VUndefined |} w2) = "")
  /\ Basic.trace "" [insertCharacter (JS.VString "H");
                     {| type := "BACKSPACE"; char := JS.VUndefined |};
                     {| type := "UNKNOWN"; char := JS.VUndefined |}] = ["H"; ""; ""]
  /\ Basic.lines (Basic.run [insertCharacter (JS.VString "H");
                             {| type := "BACKSPACE"; char := JS.VUndefined |};
                             {| type := "UNKNOWN"; char := JS.VUndefined |}])
     = [JS.quoted "H"; JS.quoted ""].
Proof.
  intros Hctx Hname.
  assert (Hbound : forall this : Connect.Instance,
             Connect.actions this = Connect.bindActions actionsToDispatch ->
             Connect.attributes (Connect.render ComponentToConnect this) !! name
             = Some (Connect.PBound creator)).
  { intros this Hacts. rewrite render_lookup, Hacts, bindActions_lookup.
    by rewrite Hname. }
  split; [|split; [|split; reflexivity]].
  - eexists. split; [by apply constructor_with_context|].
    intros args. rewrite Hbound; [reflexivity|].
    match goal with |- Connect.actions (snd (Redux.dispatches _ _ ?w)) = _ =>
      assert (Hw : Connect.attached mapState w) by by exists 0 end.
    by destruct (fields_dispatches reduce mapState actions _ Hw) as (_ & -> & _).
  - assert (Hctx' : Connect.getChildContext (Act := Action) {["store" := Connect.PStore]}
                      !! "store" = Some Connect.PStore).
    { unfold Connect.getChildContext. rewrite lookup_singleton_eq.
      apply lookup_singleton_eq. }
    assert (Hins : forall this : Connect.Instance,
               Connect.actions this = Connect.bindActions Editor.actionsToDispatch ->
               Connect.attributes (Connect.render Editor.View this) !! "insertCharacter"
               = Some (Connect.PBound Editor.insertCharacter')).
    { intros this Hacts. rewrite render_lookup, Hacts, bindActions_lookup.
      unfold Editor.actionsToDispatch.
      rewrite lookup_insert_ne by done. by rewrite lookup_singleton_eq. }
    assert (Hrem : forall this : Connect.Instance,
               Connect.actions this = Connect.bindActions Editor.actionsToDispatch ->
               Connect.attributes (Connect.render Editor.View this) !! "removeCharacter"
               = Some (Connect.PBound Editor.removeCharacter)).
    { intros this Hacts. rewrite render_lookup, Hacts, bindActions_lookup.
      unfold Editor.actionsToDispatch. by rewrite lookup_insert_eq. }
    eexists. eexists. eexists.
    split; [unfold Editor.mountUnderProvider; by apply constructor_with_context|].
    split; [reflexivity|].
    split; [rewrite Hins by reflexivity; reflexivity|].
    split; [reflexivity|].
    split; [rewrite Hrem by reflexivity; reflexivity|].
    split; reflexivity.
Qed.

Lemma bound_actions_dispatch_witness :
  exists w0,
    Editor.mountUnderProvider = Connect.Ok w0
    /\ forall args,
        Connect.call reducer
          (Connect.attributes (Connect.render Editor.View (snd w0)) !! "insertCharacter")
          args w0
        = Connect.Ok (Redux.dispatch reducer (Editor.insertCharacter' args) w0).
Proof.
  destruct (bound_actions_dispatch reducer Editor.View Editor.mapState
              Editor.actionsToDispatch ∅
              (Connect.getChildContext {["store" := Connect.PStore]}) "" []
              "insertCharacter" Editor.insertCharacter')
    as [(w0 & Hmount & Hcall) _].
  - unfold Connect.getChildContext. rewrite lookup_singleton_eq.
    apply lookup_singleton_eq.
  - unfold Editor.actionsToDispatch.
    rewrite lookup_insert_ne by done. apply lookup_singleton_eq.
  - exists w0. split; [exact Hmount | exact Hcall].
Defined.

(** C10: the wrapped component receives every prop the parent passed,
    unchanged, except under a name the derived props or the bound actions
    also use: there the derived props win over the parent's props, and the
    bound actions win over both. *)
Theorem render_forwards_props {State Act Comp : Type}
        (reducer : option State -> Act -> State)
        (ComponentToConnect : Comp)
        (mapState : State -> gmap string (Connect.PropVal (Act := Act)))
        (actionsToDispatch : gmap string (list JS.Val -> Act))
        (props context : gmap string (Connect.PropVal (Act := Act)))
        (s0 : State) (actions : list Act) (k : string) :
  context !! "store" = Some Connect.PStore ->
  exists w0,
    Connect.constructor mapState actionsToDispatch props context (Connect.storeAt s0)
    = Connect.Ok w0
    /\ Connect.component
         (Connect.render ComponentToConnect (snd (Redux.dispatches reducer actions w0)))
       = ComponentToConnect
    /\ Connect.attributes
         (Connect.render ComponentToConnect (snd (Redux.dispatches reducer actions w0))) !! k
       = match actionsToDispatch !! k with
         | Some creator => Some (Connect.PBound creator)
         | None =>
             match Connect.derived (Redux.dispatches reducer actions w0) !! k with
             | Some v => Some v
             | None => props !! k
             end
         end.
Proof.
  intros Hctx. eexists. split; [by apply constructor_with_context|].
  split; [reflexivity|].
  match goal with |- context [Redux.dispatches _ _ ?w] =>
    assert (Hw : Connect.attached mapState w) by by exists 0 end.
  rewrite render_lookup.
  destruct (fields_dispatches reducer mapState actions _ Hw) as (-> & -> & _).
  simpl. rewrite bindActions_lookup.
  by destruct (actionsToDispatch !! k).
Qed.

Lemma render_forwards_props_witness :
  exists w0,
    Connect.constructor Editor.mapState Editor.actionsToDispatch
      {["text" := Connect.PVal (JS.VString "from the parent")]}
      {["store" := Connect.PStore]} (Connect.storeAt "") = Connect.Ok w0
    /\ Connect.attributes
         (Connect.render Editor.View
            (snd (Redux.dispatches reducer [insertCharacter (JS.VString "a")] w0))) !! "text"
       = Some (Connect.PVal (JS.VString "a")).
Proof.
  destruct (render_forwards_props reducer Editor.View Editor.mapState
              Editor.actionsToDispatch
              {["text" := Connect.PVal (JS.VString "from the parent")]}
              {["store" := Connect.PStore]} "" [insertCharacter (JS.VString "a")] "text")
    as (w0 & Hmount & _ & Hk).
  - apply lookup_singleton_eq.
  - exists w0. split; [exact Hmount|]. rewrite Hk.
    unfold Editor.actionsToDispatch.
    rewrite lookup_insert_ne, lookup_singleton_ne by done.
    injection Hmount as <-. reflexivity.
Defined.

(** * Further properties of the code *)

(** ** The reducer, continued *)

Lemma string_eq_of_list (s t : string) :
  list_ascii_of_string s = list_ascii_of_string t -> s = t.
Proof.
  intros H. rewrite <- (string_of_list_ascii_of_string s), H.
  apply string_of_list_ascii_of_string.
Qed.

Lemma list_ascii_of_substring (k : nat) (s : string) :
  list_ascii_of_string (String.substring 0 k s) = firstn k (list_ascii_of_string s).
Proof.
  revert k. induction s as [|c s IH]; intros [|k]; simpl; try reflexivity.
  by rewrite IH.
Qed.

Lemma length_list_ascii (s : string) :
  List.length (list_ascii_of_string s) = String.length s.
Proof. induction s as [|c s IH]; simpl; [reflexivity | by rewrite IH]. Qed.

(** X1: typing one code unit and then pressing backspace gives back the
    state there was, whatever the state. *)
Theorem type_then_backspace_restores (s : string) (c : ascii) (payload : JS.Val) :
  reducer (Some (reducer (Some s) (insertCharacter (JS.VString (String c EmptyString)))))
          {| type := "BACKSPACE"; char := payload |} = s.
Proof.
  rewrite reducer_BACKSPACE by reflexivity.
  rewrite reducer_CHARACTER_TYPED by reflexivity. simpl JS.ToString.
  apply string_eq_of_list.
  rewrite substring_all_but_last, list_ascii_of_string_app. simpl.
  apply removelast_last.
Qed.

(** X2: [n] backspaces in a row cut the last [n] code units off the state,
    and stop at the empty string when the state is shorter than that. *)
Theorem backspaces_truncate (s : string) (n : nat) :
  foldl (fun s a => reducer (Some s) a) s
        (repeat {| type := "BACKSPACE"; char := JS.VUndefined |} n)
  = String.substring 0 (String.length s - n) s.
Proof.
  revert s. induction n as [|n IH]; intros s.
  - simpl. rewrite Nat.sub_0_r. apply string_eq_of_list.
    rewrite list_ascii_of_substring, <- length_list_ascii. by rewrite firstn_all.
  - simpl repeat. simpl foldl. rewrite IH.
    rewrite reducer_BACKSPACE by reflexivity.
    apply string_eq_of_list. rewrite !list_ascii_of_substring.
    rewrite <- !length_list_ascii, list_ascii_of_substring.
    rewrite length_firstn, firstn_firstn. f_equal. lia.
Qed.

Lemma reducer_unrecognised (s : string) (a : Action) :
  recognised a = false -> reducer (Some s) a = s.
Proof.
  unfold recognised. intros H. apply orb_false_elim in H as [H1 H2].
  unfold reducer. by rewrite H1, H2.
Qed.

(** X3: the actions the reducer has no case for can be dropped from any
    sequence of actions without changing the state the sequence leads to. *)
Theorem unrecognised_actions_are_inert (s : string) (actions : list Action) :
  foldl (fun s a => reducer (Some s) a) s actions
  = foldl (fun s a => reducer (Some s) a) s (List.filter recognised actions).
Proof.
  revert s. induction actions as [|a actions IH]; intros s; [reflexivity|].
  simpl. destruct (recognised a) eqn:E; simpl.
  - apply IH.
  - rewrite reducer_unrecognised by assumption. apply IH.
Qed.

(** ** The console renderers, continued *)

Lemma strict_neq_true (p : option string) (s : string) :
  JS.strict_neq p s = true -> p <> Some s.
Proof.
  destruct p as [p|]; simpl; [|discriminate].
  intros H [= ->]. by rewrite String.eqb_refl in H.
Qed.

Lemma strict_neq_false (p : option string) (s : string) :
  JS.strict_neq p s = false -> p = Some s.
Proof.
  destruct p as [p|]; simpl; [|discriminate].
  intros H. apply negb_false_iff, String.eqb_eq in H. by subst.
Qed.

Lemma rendered_head (p : option string) (l : list string) (x : string) :
  Basic.rendered p l !! 0 = Some x -> p <> Some x.
Proof.
  induction l as [|s l IH]; simpl; [discriminate|].
  destruct (JS.strict_neq p s) eqn:E; [|assumption].
  intros [= <-]. by apply strict_neq_true.
Qed.

Lemma rendered_adjacent (p : option string) (l : list string) (i : nat) (x y : string) :
  Basic.rendered p l !! i = Some x -> Basic.rendered p l !! S i = Some y -> x <> y.
Proof.
  revert p i. induction l as [|s l IH]; intros p i; simpl; [discriminate|].
  destruct (JS.strict_neq p s) eqn:E; [|apply IH].
  destruct i as [|i]; simpl.
  - intros [= <-] Hy Heq. apply rendered_head in Hy. congruence.
  - apply IH.
Qed.

(** X4: the change-detecting renderer never prints the same line twice in
    a row. *)
Theorem console_never_repeats (actions : list Action) (i : nat) (x y : string) :
  Basic.lines (Basic.run actions) !! i = Some x ->
  Basic.lines (Basic.run actions) !! S i = Some y ->
  x <> y.
Proof.
  rewrite BasicFacts.lines_run, <- rendered_from_undefined, !list_lookup_fmap.
  destruct (Basic.rendered None (Basic.trace "" actions) !! i) as [x'|] eqn:Hx;
    [|discriminate].
  destruct (Basic.rendered None (Basic.trace "" actions) !! S i) as [y'|] eqn:Hy;
    [|discriminate].
  simpl. intros [= <-] [= <-] Heq. apply quoted_inj in Heq.
  by apply (rendered_adjacent _ _ _ _ _ Hx Hy).
Qed.

Lemma console_never_repeats_witness :
  Basic.lines (Basic.run [insertCharacter (JS.VString "a");
                          {| type := "RANDOM"; char := JS.VUndefined |};
                          {| type := "BACKSPACE"; char := JS.VUndefined |}]) !! 0
  = Some (JS.quoted "a")
  /\ Basic.lines (Basic.run [insertCharacter (JS.VString "a");
                             {| type := "RANDOM"; char := JS.VUndefined |};
                             {| type := "BACKSPACE"; char := JS.VUndefined |}]) !! 1
     = Some (JS.quoted "")
  /\ JS.quoted "a" <> JS.quoted "".
Proof.
  split; [reflexivity|]. split; [reflexivity|].
  apply (console_never_repeats
           [insertCharacter (JS.VString "a"); {| type := "RANDOM"; char := JS.VUndefined |};
            {| type := "BACKSPACE"; char := JS.VUndefined |}] 0);
    reflexivity.
Defined.

Lemma lines_snoc (actions : list Action) (a : Action) :
  Basic.lines (Basic.run (actions ++ [a]))
  = if JS.strict_neq (Basic.prevText (snd (Basic.run actions)))
         (Basic.state (Basic.run (actions ++ [a])))
    then Basic.lines (Basic.run actions)
           ++ [JS.quoted (Basic.state (Basic.run (actions ++ [a])))]
    else Basic.lines (Basic.run actions).
Proof.
  unfold Basic.run. rewrite dispatches_snoc.
  unfold Basic.lines at 1.
  rewrite BasicFacts.globals_dispatch by apply BasicFacts.wired_run.
  by rewrite BasicFacts.console_render.
Qed.

(** X5: once an action has been dispatched, the last line on the console
    shows the state the store is in, and [prevText] holds it. *)
Theorem console_shows_current_state (actions : list Action) :
  actions <> [] ->
  last (Basic.lines (Basic.run actions)) = Some (JS.quoted (Basic.state (Basic.run actions)))
  /\ Basic.prevText (snd (Basic.run actions)) = Some (Basic.state (Basic.run actions)).
Proof.
  intros Hne. split; [|by apply BasicFacts.prevText_run].
  induction actions as [|a actions IH] using rev_ind; [done|].
  rewrite lines_snoc.
  destruct (JS.strict_neq _ _) eqn:E; [apply last_snoc|].
  apply strict_neq_false in E.
  destruct (decide (actions = [])) as [->|Hne']; [discriminate|].
  rewrite IH by assumption.
  rewrite BasicFacts.prevText_run in E by assumption. congruence.
Qed.

Lemma console_shows_current_state_witness :
  last (Basic.lines (Basic.run [insertCharacter (JS.VString "a");
                                {| type := "RANDOM"; char := JS.VUndefined |}]))
  = Some (JS.quoted "a").
Proof.
  apply (proj1 (console_shows_current_state
                  [insertCharacter (JS.VString "a");
                   {| type := "RANDOM"; char := JS.VUndefined |}] ltac:(discriminate))).
Defined.

Lemma trace_length (s : string) (actions : list Action) :
  List.length (Basic.trace s actions) = List.length actions.
Proof.
  revert s. induction actions as [|a actions IH]; intros s; simpl; [reflexivity|].
  by rewrite IH.
Qed.

Lemma trace_lookup (s : string) (actions : list Action) (i : nat) :
  (i < List.length actions)%nat ->
  Basic.trace s actions !! i
  = Some (foldl (fun s a => reducer (Some s) a) s (firstn (S i) actions)).
Proof.
  revert s i. induction actions as [|a actions IH]; intros s i Hi; simpl in Hi; [lia|].
  destruct i as [|i]; simpl; [reflexivity | apply IH; lia].
Qed.

Lemma rendered_length (p : option string) (l : list string) :
  (List.length (Basic.rendered p l) <= List.length l)%nat.
Proof.
  revert p. induction l as [|s l IH]; intros p; simpl; [lia|].
  destruct (JS.strict_neq p s); simpl; [specialize (IH (Some s)) | specialize (IH p)]; lia.
Qed.

(** X6: the naive renderer prints one line per dispatch, the line of the
    state that dispatch produced; the change-detecting renderer prints at
    most as many lines as there were dispatches. *)
Theorem naive_prints_every_dispatch (actions : list Action) :
  List.length (Naive.console (Naive.run actions)) = List.length actions
  /\ (forall i, (i < List.length actions)%nat ->
        Naive.console (Naive.run actions) !! i
        = Some (JS.quoted (foldl (fun s a => reducer (Some s) a) "" (firstn (S i) actions))))
  /\ (List.length (Basic.lines (Basic.run actions)) <= List.length actions)%nat.
Proof.
  rewrite naive_console_run, BasicFacts.lines_run, <- rendered_from_undefined.
  rewrite !length_map, trace_length. split; [reflexivity|]. split.
  - intros i Hi. by rewrite list_lookup_fmap, trace_lookup.
  - rewrite <- (trace_length "" actions). apply rendered_length.
Qed.

Lemma rendered_skips_unrecognised (s : string) (actions : list Action) :
  Basic.rendered (Some s) (Basic.trace s actions)
  = Basic.rendered (Some s) (Basic.trace s (List.filter recognised actions)).
Proof.
  revert s. induction actions as [|a actions IH]; intros s; [reflexivity|].
  simpl List.filter. destruct (recognised a) eqn:E.
  - simpl. destruct (String.eqb_spec s (reducer (Some s) a)) as [Heq|Hne]; simpl.
    + rewrite <- Heq. apply IH.
    + f_equal. apply IH.
  - simpl. rewrite reducer_unrecognised by assumption.
    rewrite String.eqb_refl. simpl. apply IH.
Qed.

(** X7: after the first dispatch, the actions the reducer has no case for
    leave no trace on the console of the change-detecting renderer: dropping
    them from the rest of the sequence gives the same output. *)
Theorem console_ignores_unrecognised (a : Action) (actions : list Action) :
  Basic.lines (Basic.run (a :: actions))
  = Basic.lines (Basic.run (a :: List.filter recognised actions)).
Proof.
  unfold Basic.run.
  rewrite !BasicFacts.lines_dispatches by apply BasicFacts.wired_boot.
  simpl. by rewrite rendered_skips_unrecognised.
Qed.

(** ** The interval callback *)

Lemma get_nth_error (s : string) (i : nat) :
  String.get i s = nth_error (list_ascii_of_string s) i.
Proof.
  revert i. induction s as [|c s IH]; intros [|i]; simpl; try reflexivity.
  apply IH.
Qed.

Lemma drop_cons_inv {A : Type} (l : list A) (i : nat) (x : A) (rest : list A) :
  drop i l = x :: rest -> nth_error l i = Some x /\ drop (S i) l = rest /\ (i < List.length l)%nat.
Proof.
  revert i. induction l as [|y l IH]; intros [|i]; simpl; try discriminate.
  - intros [= -> ->]. split; [reflexivity|]. split; [apply drop_0 | lia].
  - intros H. destruct (IH _ H) as (? & ? & ?).
    split; [assumption|]. split; [assumption | lia].
Qed.

Lemma script_cons (c : ascii) (rest : list ascii) (i : nat) :
  Timer.script (c :: rest) i
  = insertCharacter (JS.VString (String c EmptyString))
      :: (if Nat.eqb (S i mod 5) 0 && negb (Nat.eqb (List.length rest) 0)
          then [{| type := "RANDOM"; char := JS.VUndefined |}] else [])
      ++ Timer.script rest (S i).
Proof. reflexivity. Qed.

Section TimerFacts.

Context {Env : Type}.
Variable userInput : string.

Lemma getState_dispatches (actions : list Action) (w : Redux.Store string Env * Env) :
  Redux.getState (fst (Redux.dispatches reducer actions w))
  = foldl (fun s a => reducer (Some s) a) (Redux.getState (fst w)) actions.
Proof.
  revert w. induction actions as [|a actions IH]; intros w; [reflexivity|].
  unfold Redux.dispatches in *. simpl. by rewrite IH.
Qed.

(** Once the interval is cleared nothing happens any more. *)
Lemma fires_cleared (n : nat) (d : Timer.Driver) (w : Redux.Store string Env * Env) :
  Timer.cleared d = true -> Timer.fires userInput n (d, w) = (d, w).
Proof.
  intros Hd. induction n as [|n IH]; [reflexivity|].
  simpl. unfold Timer.fire. simpl. by rewrite Hd.
Qed.

Lemma fire_types (i : nat) (c : ascii) (w : Redux.Store string Env * Env) :
  nth_error (list_ascii_of_string userInput) i = Some c ->
  (i < String.length userInput)%nat ->
  Timer.fire userInput
    ({| Timer.index := i; Timer.nextIsRandom := false; Timer.cleared := false |}, w)
  = ({| Timer.index := S i; Timer.nextIsRandom := Nat.eqb (S i mod 5) 0;
        Timer.cleared := false |},
     Redux.dispatch reducer (insertCharacter (JS.VString (String c EmptyString))) w).
Proof.
  intros Hnth Hlt. unfold Timer.fire, Timer.callback. simpl.
  apply Nat.ltb_lt in Hlt. rewrite Hlt. by rewrite get_nth_error, Hnth.
Qed.

Lemma fire_random (i : nat) (w : Redux.Store string Env * Env) :
  (i < String.length userInput)%nat ->
  Timer.fire userInput
    ({| Timer.index := i; Timer.nextIsRandom := true; Timer.cleared := false |}, w)
  = ({| Timer.index := i; Timer.nextIsRandom := false; Timer.cleared := false |},
     Redux.dispatch reducer {| type := "RANDOM"; char := JS.VUndefined |} w).
Proof.
  intros Hlt. unfold Timer.fire, Timer.callback. simpl.
  apply Nat.ltb_lt in Hlt. by rewrite Hlt.
Qed.

Lemma fire_clears (i : nat) (r : bool) (w : Redux.Store string Env * Env) :
  (String.length userInput <= i)%nat ->
  Timer.fire userInput
    ({| Timer.index := i; Timer.nextIsRandom := r; Timer.cleared := false |}, w)
  = ({| Timer.index := i; Timer.nextIsRandom := r; Timer.cleared := true |}, w).
Proof.
  intros Hge. unfold Timer.fire, Timer.callback. simpl.
  apply Nat.ltb_ge in Hge. by rewrite Hge.
Qed.

Lemma fires_S (n : nat) (dw : Timer.Driver * (Redux.Store string Env * Env)) :
  Timer.fires userInput (S n) dw = Timer.fires userInput n (Timer.fire userInput dw).
Proof. reflexivity. Qed.

(** From position [i] with no RANDOM pending, the callback dispatches the
    script of the rest of the input and then clears the interval. *)
Lemma fires_script (rest : list ascii) (i : nat) (w : Redux.Store string Env * Env) (k : nat) :
  drop i (list_ascii_of_string userInput) = rest ->
  Timer.fires userInput (List.length (Timer.script rest i) + 1 + k)
    ({| Timer.index := i; Timer.nextIsRandom := false; Timer.cleared := false |}, w)
  = ({| Timer.index := i + List.length rest;
        Timer.nextIsRandom :=
          match rest with
          | [] => false
          | _ => Nat.eqb ((i + List.length rest) mod 5) 0
          end;
        Timer.cleared := true |},
     Redux.dispatches reducer (Timer.script rest i) w).
Proof.
  revert i w. induction rest as [|c rest IH]; intros i w Hdrop.
  - assert (Hlen : (String.length userInput <= i)%nat).
    { rewrite <- length_list_ascii.
      apply (f_equal (@List.length ascii)) in Hdrop.
      rewrite length_drop in Hdrop. simpl in Hdrop. lia. }
    change (List.length (Timer.script [] i) + 1 + k)%nat with (S k).
    rewrite fires_S, fire_clears by assumption.
    rewrite fires_cleared by reflexivity.
    change (List.length []) with 0%nat. by rewrite Nat.add_0_r.
  - apply drop_cons_inv in Hdrop as (Hnth & Hdrop & Hlt).
    rewrite length_list_ascii in Hlt.
    assert (Hrest : List.length rest = (String.length userInput - S i)%nat).
    { rewrite <- Hdrop, length_drop, length_list_ascii. reflexivity. }
    replace (i + List.length (c :: rest))%nat with (S i + List.length rest)%nat
      by (simpl; lia).
    rewrite script_cons.
    destruct (Nat.eqb (S i mod 5) 0) eqn:Hr; simpl andb.
    + destruct rest as [|c' rest].
      * change (List.length _ + 1 + k)%nat with (S (S k)).
        rewrite !fires_S, (fire_types _ _ _ Hnth Hlt), Hr.
        rewrite fire_clears by (simpl in Hrest; lia).
        rewrite fires_cleared by reflexivity.
        change (List.length []) with 0%nat. by rewrite Nat.add_0_r, Hr.
      * change (negb (Nat.eqb (List.length (c' :: rest)) 0)) with true. cbv iota.
        change (List.length (?a :: ([?b] ++ ?l)) + 1 + k)%nat
          with (S (S (List.length l + 1 + k))).
        rewrite !fires_S, (fire_types _ _ _ Hnth Hlt), Hr.
        rewrite fire_random by (simpl in Hrest; lia).
        exact (IH (S i) _ Hdrop).
    + cbv iota.
      change (List.length (?a :: ([] ++ ?l)) + 1 + k)%nat
        with (S (List.length l + 1 + k)).
      rewrite fires_S, (fire_types _ _ _ Hnth Hlt), Hr.
      change (Redux.dispatches reducer (?a :: [] ++ ?l) w)
        with (Redux.dispatches reducer l (Redux.dispatch reducer a w)).
      rewrite (IH (S i) _ Hdrop).
      destruct rest; [|reflexivity].
      change (List.length []) with 0%nat. by rewrite Nat.add_0_r, Hr.
Qed.

End TimerFacts.

Lemma script_length (rest : list ascii) (i : nat) :
  List.length (Timer.script rest i)
  = (List.length rest + ((i + List.length rest - 1) / 5 - i / 5))%nat.
Proof.
  revert i. induction rest as [|c rest IH]; intros i.
  - change (List.length (Timer.script [] i)) with 0%nat.
    change (List.length (@nil ascii)) with 0%nat.
    assert ((i + 0 - 1) / 5 <= i / 5)%nat by (apply Nat.Div0.div_le_mono; lia). lia.
  - rewrite script_cons.
    change (List.length (?a :: ?l)) with (S (List.length l)).
    rewrite length_app, IH.
    assert (H2 : (S i / 5 = i / 5 + if Nat.eqb (S i mod 5) 0 then 1 else 0)%nat).
    { destruct (Nat.eqb_spec (S i mod 5) 0) as [E|E];
        pose proof (Nat.div_mod_eq i 5); pose proof (Nat.div_mod_eq (S i) 5);
        pose proof (Nat.mod_upper_bound i 5); pose proof (Nat.mod_upper_bound (S i) 5);
        lia. }
    destruct rest as [|c' rest].
    + change (List.length (@nil ascii)) with 0%nat.
      rewrite andb_false_r. change (List.length (@nil Action)) with 0%nat.
      replace (S i + 0 - 1)%nat with i by lia.
      replace (i + 1 - 1)%nat with i by lia. lia.
    + change (negb (Nat.eqb (List.length (c' :: rest)) 0)) with true.
      rewrite andb_true_r.
      change (List.length (c' :: rest)) with (S (List.length rest)).
      replace (i + S (S (List.length rest)) - 1)%nat
        with (S i + S (List.length rest) - 1)%nat by lia.
      assert (H1 : (S i / 5 <= (S i + S (List.length rest) - 1) / 5)%nat)
        by (apply Nat.Div0.div_le_mono; lia).
      destruct (Nat.eqb (S i mod 5) 0);
        [change (List.length [?x]) with 1%nat
        | change (List.length (@nil Action)) with 0%nat]; lia.
Qed.

Lemma string_app_snoc (s : string) (c : ascii) (t : string) :
  (s +:+ String c EmptyString) +:+ t = s +:+ String c t.
Proof.
  apply string_eq_of_list. rewrite !list_ascii_of_string_app. simpl.
  by rewrite <- app_assoc.
Qed.

Lemma fold_script (s : string) (rest : list ascii) (i : nat) :
  foldl (fun s a => reducer (Some s) a) s (Timer.script rest i)
  = s +:+ string_of_list_ascii rest.
Proof.
  revert s i. induction rest as [|c rest IH]; intros s i.
  - simpl. apply string_eq_of_list. rewrite list_ascii_of_string_app. simpl.
    by rewrite app_nil_r.
  - rewrite script_cons. simpl string_of_list_ascii. rewrite <- string_app_snoc.
    destruct (Nat.eqb (S i mod 5) 0 && negb (Nat.eqb (List.length rest) 0)).
    + change (foldl ?f s (?a :: [?b] ++ ?l)) with (foldl f (f (f s a) b) l).
      cbv beta. rewrite IH. f_equal.
    + change (foldl ?f s (?a :: [] ++ ?l)) with (foldl f (f s a) l).
      cbv beta. rewrite IH. f_equal.
Qed.

Lemma trace_cons (s : string) (a : Action) (actions : list Action) :
  Basic.trace s (a :: actions)
  = reducer (Some s) a :: Basic.trace (reducer (Some s) a) actions.
Proof. reflexivity. Qed.

Lemma reducer_types (s : string) (c : ascii) :
  reducer (Some s) (insertCharacter (JS.VString (String c EmptyString)))
  = s +:+ String c EmptyString.
Proof. reflexivity. Qed.

Lemma reducer_random (s : string) :
  reducer (Some s) {| type := "RANDOM"; char := JS.VUndefined |} = s.
Proof. reflexivity. Qed.

Lemma prefixes_with_repeats_cons (s : string) (c : ascii) (rest : list ascii) (i : nat) :
  Timer.prefixes_with_repeats s (c :: rest) i
  = (s +:+ String c EmptyString)
      :: (if Nat.eqb (S i mod 5) 0 && negb (Nat.eqb (List.length rest) 0)
          then [s +:+ String c EmptyString] else [])
      ++ Timer.prefixes_with_repeats (s +:+ String c EmptyString) rest (S i).
Proof. reflexivity. Qed.

Lemma trace_script (s : string) (rest : list ascii) (i : nat) :
  Basic.trace s (Timer.script rest i) = Timer.prefixes_with_repeats s rest i.
Proof.
  revert s i. induction rest as [|c rest IH]; intros s i; [reflexivity|].
  rewrite script_cons, prefixes_with_repeats_cons.
  destruct (Nat.eqb (S i mod 5) 0 && negb (Nat.eqb (List.length rest) 0)).
  - change (?a :: [?b] ++ ?l) with (a :: b :: l).
    rewrite !trace_cons, reducer_types, reducer_random, IH. reflexivity.
  - change (?a :: [] ++ ?l) with (a :: l).
    rewrite !trace_cons, reducer_types, IH. reflexivity.
Qed.

Lemma string_app_neq (s : string) (c : ascii) : String.eqb s (s +:+ String c EmptyString) = false.
Proof.
  apply String.eqb_neq. intros H.
  apply (f_equal (fun x => List.length (list_ascii_of_string x))) in H.
  rewrite list_ascii_of_string_app, length_app in H. simpl in H. lia.
Qed.

Lemma rendered_prefixes (p : option string) (s : string) (rest : list ascii) (i : nat) :
  p = None \/ p = Some s ->
  Basic.rendered p (Timer.prefixes_with_repeats s rest i) = Timer.prefixes s rest.
Proof.
  revert p s i. induction rest as [|c rest IH]; intros p s i Hp; [reflexivity|].
  rewrite prefixes_with_repeats_cons. simpl Timer.prefixes.
  assert (Hneq : JS.strict_neq p (s +:+ String c EmptyString) = true).
  { destruct Hp as [->| ->]; [reflexivity|]. simpl. by rewrite string_app_neq. }
  destruct (Nat.eqb (S i mod 5) 0 && negb (Nat.eqb (List.length rest) 0)).
  - simpl. rewrite Hneq, String.eqb_refl. simpl. f_equal. apply IH. by right.
  - simpl. rewrite Hneq. f_equal. apply IH. by right.
Qed.

Lemma prefixes_length (s : string) (rest : list ascii) :
  List.length (Timer.prefixes s rest) = List.length rest.
Proof.
  revert s. induction rest as [|c rest IH]; intros s; simpl; [reflexivity|].
  by rewrite IH.
Qed.

Lemma prefixes_lookup (s : string) (rest : list ascii) (i : nat) :
  (i < List.length rest)%nat ->
  Timer.prefixes s rest !! i = Some (s +:+ string_of_list_ascii (firstn (S i) rest)).
Proof.
  revert s i. induction rest as [|c rest IH]; intros s i Hi; simpl in Hi; [lia|].
  destruct i as [|i].
  - simpl. reflexivity.
  - simpl Timer.prefixes. rewrite lookup_cons. rewrite IH by lia.
    f_equal. apply string_eq_of_list.
    rewrite !list_ascii_of_string_app. simpl.
    rewrite !list_ascii_of_string_of_list_ascii. by rewrite <- app_assoc.
Qed.

Lemma prefixes_with_repeats_length (s : string) (rest : list ascii) (i : nat) :
  List.length (Timer.prefixes_with_repeats s rest i) = List.length (Timer.script rest i).
Proof. by rewrite <- trace_script, trace_length. Qed.

(** X8: for any input, the interval callback types the whole input into
    the store and then clears the interval: after
    [length + (length - 1) / 5 + 1] periods the index is at the end, the store
    holds what it held followed by the input, and further periods change
    nothing. *)
Theorem timer_types_whole_input {Env : Type} (userInput : string)
        (w : Redux.Store string Env * Env) (k : nat) :
  let n := (String.length userInput + (String.length userInput - 1) / 5 + 1 + k)%nat in
  Timer.cleared (fst (Timer.fires userInput n (Timer.start, w))) = true
  /\ Timer.index (fst (Timer.fires userInput n (Timer.start, w))) = String.length userInput
  /\ Redux.getState (fst (snd (Timer.fires userInput n (Timer.start, w))))
     = Redux.getState (fst w) +:+ userInput
  /\ Timer.fires userInput (S n) (Timer.start, w) = Timer.fires userInput n (Timer.start, w).
Proof.
  intros n.
  assert (Hn : n = (List.length (Timer.script (list_ascii_of_string userInput) 0) + 1 + k)%nat).
  { unfold n. rewrite script_length, length_list_ascii.
    change (0 / 5)%nat with 0%nat. rewrite Nat.sub_0_r. reflexivity. }
  assert (Hrun := fires_script userInput (list_ascii_of_string userInput) 0 w k (drop_0 _)).
  assert (Hrun' := fires_script userInput (list_ascii_of_string userInput) 0 w (S k) (drop_0 _)).
  replace (S n) with (List.length (Timer.script (list_ascii_of_string userInput) 0) + 1 + S k)%nat
    by lia.
  rewrite Hn. unfold Timer.start. rewrite Hrun, Hrun'.
  split; [reflexivity|]. split; [simpl; apply length_list_ascii|].
  split; [|reflexivity].
  simpl. rewrite getState_dispatches, fold_script.
  by rewrite string_of_list_ascii_of_string.
Qed.

(** X9: whatever the input, basic.js prints each non-empty prefix of it
    exactly once and in order: one line per code unit, the RANDOM actions in
    between printing nothing. *)
Theorem basic_prints_each_prefix_once (userInput : string) (k : nat) :
  let n := (String.length userInput + (String.length userInput - 1) / 5 + 1 + k)%nat in
  let out := Basic.lines (snd (Timer.fires userInput n (Timer.start, Basic.boot))) in
  List.length out = String.length userInput
  /\ forall i, (i < String.length userInput)%nat ->
       out !! i = Some (JS.quoted (String.substring 0 (S i) userInput)).
Proof.
  intros n out.
  assert (Hout : out = map JS.quoted (Timer.prefixes "" (list_ascii_of_string userInput))).
  { unfold out, n.
    replace (String.length userInput + (String.length userInput - 1) / 5 + 1 + k)%nat
      with (List.length (Timer.script (list_ascii_of_string userInput) 0) + 1 + k)%nat.
    2:{ rewrite script_length, length_list_ascii.
        change (0 / 5)%nat with 0%nat. rewrite Nat.sub_0_r. reflexivity. }
    unfold Timer.start. rewrite (fires_script userInput _ 0 Basic.boot k (drop_0 _)).
    simpl snd.
    change (Redux.dispatches reducer ?l Basic.boot) with (Basic.run l).
    rewrite BasicFacts.lines_run, <- rendered_from_undefined, trace_script.
    rewrite rendered_prefixes by by left. reflexivity. }
  rewrite Hout, length_map, prefixes_length, length_list_ascii.
  split; [reflexivity|]. intros i Hi.
  rewrite list_lookup_fmap, prefixes_lookup by by rewrite length_list_ascii.
  assert (Heq : "" +:+ string_of_list_ascii (firstn (S i) (list_ascii_of_string userInput))
                = String.substring 0 (S i) userInput).
  { apply string_eq_of_list.
    rewrite list_ascii_of_string_app, list_ascii_of_substring.
    by rewrite list_ascii_of_string_of_list_ascii. }
  by rewrite Heq.
Qed.

Lemma basic_prints_each_prefix_once_witness :
  Basic.lines (snd (Timer.fires "redux" 7 (Timer.start, Basic.boot))) !! 2
  = Some (JS.quoted "red").
Proof.
  apply (proj2 (basic_prints_each_prefix_once "redux" 1) 2). simpl. lia.
Defined.

(** X10: with the naive renderer the same callback prints one line per
    dispatch: every non-empty prefix of the input, and a second time each
    prefix whose length is a multiple of five unless it is the whole input;
    [length + (length - 1) / 5] lines in all. *)
Theorem naive_repeats_every_fifth_prefix (userInput : string) (k : nat) :
  let n := (String.length userInput + (String.length userInput - 1) / 5 + 1 + k)%nat in
  let out := Naive.console (snd (Timer.fires userInput n (Timer.start, Naive.boot))) in
  out = map JS.quoted (Timer.prefixes_with_repeats "" (list_ascii_of_string userInput) 0)
  /\ List.length out = (String.length userInput + (String.length userInput - 1) / 5)%nat.
Proof.
  intros n out.
  assert (Hout : out = map JS.quoted
                         (Timer.prefixes_with_repeats "" (list_ascii_of_string userInput) 0)).
  { unfold out, n.
    replace (String.length userInput + (String.length userInput - 1) / 5 + 1 + k)%nat
      with (List.length (Timer.script (list_ascii_of_string userInput) 0) + 1 + k)%nat.
    2:{ rewrite script_length, length_list_ascii.
        change (0 / 5)%nat with 0%nat. rewrite Nat.sub_0_r. reflexivity. }
    unfold Timer.start. rewrite (fires_script userInput _ 0 Naive.boot k (drop_0 _)).
    simpl snd.
    change (Redux.dispatches reducer ?l Naive.boot) with (Naive.run l).
    by rewrite naive_console_run, trace_script. }
  split; [assumption|].
  rewrite Hout, length_map, prefixes_with_repeats_length, script_length, length_list_ascii.
  change (0 / 5)%nat with 0%nat. rewrite Nat.sub_0_r. reflexivity.
Qed.

(** ** The view of react/view.js *)

Lemma dispatch_no_listener {State Act Env : Type} (r : option State -> Act -> State)
      (a : Act) (w : Redux.Store State Env * Env) :
  Redux.currentListeners (fst w) = [] -> snd (Redux.dispatch r a w) = snd w.
Proof. intros H. unfold Redux.dispatch, Redux.notify. simpl. by rewrite H. Qed.

Lemma length_one_eqb (key : string) :
  Z.eqb (JS.length key) 1 = Nat.eqb (String.length key) 1.
Proof.
  unfold JS.length.
  destruct (Nat.eqb_spec (String.length key) 1) as [->|Hne]; [reflexivity|].
  apply Z.eqb_neq. lia.
Qed.

Lemma dom_render_text (text : string) :
  Dom.textContent (Dom.render text)
  = if String.eqb text "" then "(type something)" else text.
Proof. destruct text; reflexivity. Qed.

Module StoreViewFacts.

Import StoreView.

Lemma onCharacter_action (key : string) (w : World) :
  onCharacter key w
  = match Keys.action key with
    | Some a => Redux.dispatch reducer a w
    | None => w
    end.
Proof.
  unfold onCharacter, Keys.action. rewrite length_one_eqb.
  destruct (String.eqb key "Backspace"); [reflexivity|].
  by destruct (Nat.eqb (String.length key) 1).
Qed.

Lemma mount_ok :
  mount = Connect.Ok
            ({| Redux.currentState := "";
                Redux.currentListeners := [(0, listener)];
                Redux.nextHandle := 1 |},
             {| text := ""; cancelSubscription := 0; listening := true |}).
Proof. unfold mount. unfold constructor. by rewrite lookup_singleton_eq. Qed.

(** While mounted: the view's listener is the store's one listener, keyup
    is registered, and the text in the component's state is the store's. *)
Lemma mounted_dispatch (a : Action) (w : World) h :
  Redux.currentListeners (fst w) = [(h, listener)] ->
  listening (snd w) = true ->
  Redux.currentListeners (fst (Redux.dispatch reducer a w)) = [(h, listener)]
  /\ listening (snd (Redux.dispatch reducer a w)) = true
  /\ text (snd (Redux.dispatch reducer a w))
     = Redux.getState (fst (Redux.dispatch reducer a w))
  /\ cancelSubscription (snd (Redux.dispatch reducer a w)) = cancelSubscription (snd w).
Proof.
  intros Hl Hk. rewrite (dispatch_one_listener reducer a w h listener Hl).
  split; [by rewrite listeners_dispatch|]. by repeat split.
Qed.

Lemma keyups_dispatches (keys : list string) (w : World) h :
  Redux.currentListeners (fst w) = [(h, listener)] ->
  listening (snd w) = true ->
  keyups keys w = Redux.dispatches reducer (Keys.actions keys) w
  /\ Redux.currentListeners (fst (keyups keys w)) = [(h, listener)]
  /\ listening (snd (keyups keys w)) = true
  /\ cancelSubscription (snd (keyups keys w)) = cancelSubscription (snd w).
Proof.
  revert w. induction keys as [|key keys IH]; intros w Hl Hk; [done|].
  change (keyups (key :: keys) w) with (keyups keys (keyup key w)).
  unfold keyup. rewrite Hk, onCharacter_action.
  unfold Keys.actions. simpl omap. fold (Keys.actions keys).
  destruct (Keys.action key) as [a|]; [|by apply IH].
  destruct (mounted_dispatch a w h Hl Hk) as (Hl' & Hk' & _ & Hc).
  destruct (IH _ Hl' Hk') as (-> & ? & ? & ->). by repeat split.
Qed.

End StoreViewFacts.

(** X11: in react/view.js a key that is neither Backspace nor a single
    code unit (Shift, Enter, an empty key) is ignored: nothing is dispatched
    and nothing changes. *)
Theorem view_ignores_other_keys (key : string) (w : StoreView.World) :
  key <> "Backspace" -> String.length key <> 1%nat ->
  StoreView.keyup key w = w.
Proof.
  intros Hb Hl. unfold StoreView.keyup.
  destruct (StoreView.listening (snd w)); [|reflexivity].
  rewrite StoreViewFacts.onCharacter_action. unfold Keys.action.
  apply String.eqb_neq in Hb. apply Nat.eqb_neq in Hl. by rewrite Hb, Hl.
Qed.

Lemma view_ignores_other_keys_witness :
  exists w0, StoreView.mount = Connect.Ok w0 /\ StoreView.keyup "Shift" w0 = w0.
Proof.
  eexists. split; [apply StoreViewFacts.mount_ok|].
  apply view_ignores_other_keys; [discriminate | simpl; lia].
Defined.

Lemma store_view_after_keys (keys : list string) :
  exists w0,
    StoreView.mount = Connect.Ok w0
    /\ Redux.getState (fst (StoreView.keyups keys w0))
       = foldl (fun s a => reducer (Some s) a) "" (Keys.actions keys)
    /\ StoreView.text (snd (StoreView.keyups keys w0))
       = Redux.getState (fst (StoreView.keyups keys w0)).
Proof.
  eexists. split; [apply StoreViewFacts.mount_ok|].
  match goal with |- context [StoreView.keyups keys ?w] => set (w0 := w) end.
  destruct (StoreViewFacts.keyups_dispatches keys w0 0 eq_refl eq_refl) as (Hrun & _).
  split; [by rewrite Hrun, getState_dispatches|].
  induction keys as [|key keys IH] using rev_ind; [reflexivity|].
  unfold StoreView.keyups. rewrite foldl_app. simpl.
  fold (StoreView.keyups keys w0).
  destruct (StoreViewFacts.keyups_dispatches keys w0 0 eq_refl eq_refl)
    as (_ & Hl & Hk & _).
  unfold StoreView.keyup. rewrite Hk, StoreViewFacts.onCharacter_action.
  destruct (Keys.action key) as [a|].
  - by destruct (StoreViewFacts.mounted_dispatch a _ 0 Hl Hk) as (_ & _ & -> & _).
  - apply IH.
    by destruct (StoreViewFacts.keyups_dispatches keys w0 0 eq_refl eq_refl).
Qed.

(** X12: mounting react/view.js with the store as a prop succeeds, and after
    any sequence of keyup events the store holds what the keys amount to (a
    single code unit typed, Backspace removing the last one, other keys
    nothing), the component's text is the store's state, and the screen shows
    that text, or the placeholder when it is empty. *)
Theorem view_follows_keys (keys : list string) :
  exists w0,
    StoreView.mount = Connect.Ok w0
    /\ Redux.getState (fst (StoreView.keyups keys w0))
       = foldl (fun s a => reducer (Some s) a) "" (Keys.actions keys)
    /\ StoreView.text (snd (StoreView.keyups keys w0))
       = Redux.getState (fst (StoreView.keyups keys w0))
    /\ Dom.textContent (StoreView.render (snd (StoreView.keyups keys w0)))
       = if String.eqb (Redux.getState (fst (StoreView.keyups keys w0))) ""
         then "(type something)"
         else Redux.getState (fst (StoreView.keyups keys w0)).
Proof.
  destruct (store_view_after_keys keys) as (w0 & Hmount & Hstate & Htext).
  exists w0. split; [assumption|]. split; [assumption|]. split; [assumption|].
  unfold StoreView.render. by rewrite dom_render_text, Htext.
Qed.

(** X13: after [componentWillUnmount] of react/view.js the store has no
    listener left, keyup events do nothing, and what is dispatched to the
    store no longer reaches the component. *)
Theorem view_unmount_detaches (keys : list string) (key : string) (a : Action) :
  exists w0,
    StoreView.mount = Connect.Ok w0
    /\ let w := StoreView.componentWillUnmount (StoreView.keyups keys w0) in
       Redux.currentListeners (fst w) = []
       /\ StoreView.keyup key w = w
       /\ snd (Redux.dispatch reducer a w) = snd w.
Proof.
  eexists. split; [apply StoreViewFacts.mount_ok|].
  match goal with |- context [StoreView.keyups keys ?w] => set (w0 := w) end.
  destruct (StoreViewFacts.keyups_dispatches keys w0 0 eq_refl eq_refl)
    as (_ & Hl & _ & Hc).
  assert (Hnone : Redux.currentListeners
                    (fst (StoreView.componentWillUnmount (StoreView.keyups keys w0))) = []).
  { unfold StoreView.componentWillUnmount. simpl. by rewrite Hl, Hc. }
  cbv zeta. split; [assumption|]. split; [reflexivity|].
  by apply dispatch_no_listener.
Qed.

(** ** The view under the connector *)

Module ConnectedViewFacts.

Import Connect.

(** While mounted under the editor's wiring. *)
Lemma bound_insertCharacter (this : Instance (Act := Action)) :
  actions this = bindActions Editor.actionsToDispatch ->
  attributes (Connect.render Editor.View this) !! "insertCharacter"
  = Some (PBound Editor.insertCharacter').
Proof.
  intros Hacts. rewrite render_lookup, Hacts, bindActions_lookup.
  unfold Editor.actionsToDispatch.
  rewrite lookup_insert_ne by done. by rewrite lookup_singleton_eq.
Qed.

Lemma bound_removeCharacter (this : Instance (Act := Action)) :
  actions this = bindActions Editor.actionsToDispatch ->
  attributes (Connect.render Editor.View this) !! "removeCharacter"
  = Some (PBound Editor.removeCharacter).
Proof.
  intros Hacts. rewrite render_lookup, Hacts, bindActions_lookup.
  unfold Editor.actionsToDispatch. by rewrite lookup_insert_eq.
Qed.

Lemma keyup_action (key : string) (w : World (State := string) (Act := Action)) :
  actions (snd w) = bindActions Editor.actionsToDispatch ->
  ConnectedView.keyup key w
  = Ok (match Keys.action key with
        | Some a => Redux.dispatch reducer a w
        | None => w
        end).
Proof.
  intros Hacts. unfold ConnectedView.keyup, ConnectedView.onCharacter, Keys.action.
  rewrite length_one_eqb, bound_insertCharacter, bound_removeCharacter by assumption.
  destruct (String.eqb key "Backspace"); [reflexivity|].
  by destruct (Nat.eqb (String.length key) 1).
Qed.

Lemma connected_keyups_dispatches (keys : list string) (w : World (State := string) (Act := Action)) :
  attached Editor.mapState w ->
  actions (snd w) = bindActions Editor.actionsToDispatch ->
  ConnectedView.keyups keys w = Ok (Redux.dispatches reducer (Keys.actions keys) w).
Proof.
  revert w. induction keys as [|key keys IH]; intros w Hw Hacts; [reflexivity|].
  simpl ConnectedView.keyups. rewrite keyup_action by assumption.
  unfold Keys.actions. simpl omap. fold (Keys.actions keys).
  destruct (Keys.action key) as [a|]; [|by apply IH].
  apply IH; [by apply attached_dispatch|].
  rewrite (instance_dispatch reducer Editor.mapState) by assumption. exact Hacts.
Qed.

End ConnectedViewFacts.

(** X14: the editor split into a view and the connector (mounted under a
    provider) behaves like the view of react/view.js that talks to the store
    itself: after the same keyup events no call has thrown, both stores hold
    the same text, and the connected view is rendered with that text as its
    [text] prop. *)
Theorem connected_view_matches_store_view (keys : list string) :
  exists w0 v0 w,
    Editor.mountUnderProvider = Connect.Ok w0
    /\ StoreView.mount = Connect.Ok v0
    /\ ConnectedView.keyups keys w0 = Connect.Ok w
    /\ Connect.storeState w = Redux.getState (fst (StoreView.keyups keys v0))
    /\ Connect.attributes (Connect.render Editor.View (snd w)) !! "text"
       = Some (Connect.PVal (JS.VString (StoreView.text (snd (StoreView.keyups keys v0))))).
Proof.
  destruct (store_view_after_keys keys) as (v0 & Hv0 & Hstate & Htext).
  eexists. exists v0. eexists.
  split.
  { unfold Editor.mountUnderProvider. apply constructor_with_context.
    unfold Connect.getChildContext. rewrite lookup_singleton_eq.
    apply lookup_singleton_eq. }
  split; [exact Hv0|].
  match goal with |- ConnectedView.keyups keys ?w = _ /\ _ => set (w0 := w) end.
  assert (Hw0 : Connect.attached Editor.mapState w0) by by exists 0.
  split; [by apply ConnectedViewFacts.connected_keyups_dispatches|].
  assert (Hs : Connect.storeState (Redux.dispatches reducer (Keys.actions keys) w0)
               = Redux.getState (fst (StoreView.keyups keys v0))).
  { rewrite Hstate. unfold Connect.storeState. by rewrite getState_dispatches. }
  split; [exact Hs|].
  rewrite render_lookup.
  assert (Hd : Connect.derived (Redux.dispatches reducer (Keys.actions keys) w0)
               = Editor.mapState
                   (Connect.storeState (Redux.dispatches reducer (Keys.actions keys) w0))).
  { apply derived_equals_selection; [|assumption|reflexivity].
    intros s s'. unfold Editor.mapState. by rewrite !dom_singleton_L. }
  destruct (fields_dispatches reducer Editor.mapState (Keys.actions keys) w0 Hw0)
    as (_ & Ha & _).
  unfold Connect.derived in Hd. subst w0.
  rewrite Ha, Hd, Hs, Htext. simpl Connect.actions. rewrite bindActions_lookup.
  unfold Editor.actionsToDispatch at 1.
  rewrite lookup_insert_ne, lookup_singleton_ne by done. simpl.
  unfold Editor.mapState. by rewrite lookup_singleton_eq.
Qed.

(** ** The connector, continued *)

Lemma dispatches_no_listener {State Act Env : Type} (r : option State -> Act -> State)
      (actions : list Act) (w : Redux.Store State Env * Env) :
  Redux.currentListeners (fst w) = [] -> snd (Redux.dispatches r actions w) = snd w.
Proof.
  revert w. induction actions as [|a actions IH]; intros w Hw; [reflexivity|].
  change (Redux.dispatches r (a :: actions) w)
    with (Redux.dispatches r actions (Redux.dispatch r a w)).
  rewrite IH by by rewrite listeners_dispatch.
  by apply dispatch_no_listener.
Qed.

Lemma unsubscribe_no_listener {State Env : Type} (h : nat) (store : Redux.Store State Env) :
  Redux.currentListeners store = [] -> Redux.unsubscribe h store = store.
Proof. destruct store as [s l n]. simpl. intros ->. reflexivity. Qed.

(** X15: [componentWillUnmount] of the connector, after any history: the
    store is left without listener, whatever is dispatched afterwards no
    longer touches the component (its derived props stay as they were), and
    unmounting a second time changes nothing. *)
Theorem connect_unmount_detaches {State Act : Type}
        (reducer : option State -> Act -> State)
        (mapState : State -> gmap string (Connect.PropVal (Act := Act)))
        (actionsToDispatch : gmap string (list JS.Val -> Act))
        (props context : gmap string (Connect.PropVal (Act := Act)))
        (s0 : State) (before after : list Act) :
  context !! "store" = Some Connect.PStore ->
  exists w0,
    Connect.constructor mapState actionsToDispatch props context (Connect.storeAt s0)
    = Connect.Ok w0
    /\ let w := Connect.componentWillUnmount (Redux.dispatches reducer before w0) in
       Redux.currentListeners (fst w) = []
       /\ snd (Redux.dispatches reducer after w) = snd (Redux.dispatches reducer before w0)
       /\ Connect.componentWillUnmount w = w.
Proof.
  intros Hctx. eexists. split; [by apply constructor_with_context|].
  match goal with |- context [Redux.dispatches reducer before ?w] => set (w0 := w) end.
  assert (Hw0 : Connect.attached mapState w0) by by exists 0.
  destruct (fields_dispatches reducer mapState before w0 Hw0) as (_ & _ & Hc).
  assert (Hl : Redux.currentListeners (fst (Redux.dispatches reducer before w0))
               = [(0, Connect.listener mapState)])
    by by rewrite listeners_dispatches.
  assert (Hnone : Redux.currentListeners
                    (fst (Connect.componentWillUnmount (Redux.dispatches reducer before w0)))
                  = []).
  { unfold Connect.componentWillUnmount. simpl. by rewrite Hl, Hc. }
  cbv zeta. split; [assumption|]. split.
  - by rewrite dispatches_no_listener.
  - unfold Connect.componentWillUnmount at 1.
    rewrite unsubscribe_no_listener by assumption.
    by destruct (Connect.componentWillUnmount _).
Qed.

Lemma connect_unmount_detaches_witness :
  exists w0,
    Editor.mountUnderProvider = Connect.Ok w0
    /\ snd (Redux.dispatches reducer [insertCharacter (JS.VString "b")]
              (Connect.componentWillUnmount
                 (Redux.dispatches reducer [insertCharacter (JS.VString "a")] w0)))
       = snd (Redux.dispatches reducer [insertCharacter (JS.VString "a")] w0).
Proof.
  destruct (connect_unmount_detaches reducer Editor.mapState Editor.actionsToDispatch
              ∅ (Connect.getChildContext {["store" := Connect.PStore]}) ""
              [insertCharacter (JS.VString "a")] [insertCharacter (JS.VString "b")])
    as (w0 & Hmount & _ & Hfrozen & _).
  - unfold Connect.getChildContext. rewrite lookup_singleton_eq.
    apply lookup_singleton_eq.
  - exists w0. split; [exact Hmount | exact Hfrozen].
Defined.

(** X16: under a [Provider], the connector's constructor succeeds exactly
    when the provider was given the store as its [store] prop; what the
    connected component itself gets as props plays no part. *)
Theorem provider_decides_mount {State Act : Type}
        (mapState : State -> gmap string (Connect.PropVal (Act := Act)))
        (actionsToDispatch : gmap string (list JS.Val -> Act))
        (providerProps props : gmap string (Connect.PropVal (Act := Act))) (s : State) :
  (exists w, Connect.constructor mapState actionsToDispatch props
               (Connect.getChildContext providerProps) (Connect.storeAt s) = Connect.Ok w)
  <-> providerProps !! "store" = Some Connect.PStore.
Proof.
  unfold Connect.constructor, Connect.getChildContext. split.
  - intros [w Hw]. destruct (providerProps !! "store") as [v|].
    + rewrite lookup_singleton_eq in Hw. by destruct v.
    + by rewrite lookup_empty in Hw.
  - intros ->. rewrite lookup_singleton_eq. by eexists.
Qed.

(** ** The two listings of the console example *)

Section PlainTimerFacts.

Context {Env : Type}.
Variable userInput : string.

Lemma plainFires_cleared (n : nat) (d : Timer.PlainDriver)
      (w : Redux.Store string Env * Env) :
  Timer.plainCleared d = true -> Timer.plainFires userInput n (d, w) = (d, w).
Proof.
  intros Hd. induction n as [|n IH]; [reflexivity|].
  simpl. unfold Timer.plainFire. simpl. by rewrite Hd.
Qed.

Lemma plainFires_script (rest : list ascii) (i : nat)
      (w : Redux.Store string Env * Env) (k : nat) :
  drop i (list_ascii_of_string userInput) = rest ->
  Timer.plainFires userInput (List.length rest + 1 + k)
    ({| Timer.plainIndex := i; Timer.plainCleared := false |}, w)
  = ({| Timer.plainIndex := i + List.length rest; Timer.plainCleared := true |},
     Redux.dispatches reducer
       (map (fun c => insertCharacter (JS.VString (String c EmptyString))) rest) w).
Proof.
  revert i w. induction rest as [|c rest IH]; intros i w Hdrop.
  - assert (Hlen : (String.length userInput <= i)%nat).
    { rewrite <- length_list_ascii.
      apply (f_equal (@List.length ascii)) in Hdrop.
      rewrite length_drop in Hdrop. simpl in Hdrop. lia. }
    apply Nat.ltb_ge in Hlen.
    change (List.length (@nil ascii) + 1 + k)%nat with (S k).
    change (Timer.plainFires userInput (S k) ?dw)
      with (Timer.plainFires userInput k (Timer.plainFire userInput dw)).
    unfold Timer.plainFire, Timer.plainCallback. simpl fst. simpl snd.
    simpl Timer.plainCleared. cbv iota. simpl Timer.plainIndex. rewrite Hlen.
    rewrite plainFires_cleared by reflexivity.
    change (List.length (@nil ascii)) with 0%nat. by rewrite Nat.add_0_r.
  - apply drop_cons_inv in Hdrop as (Hnth & Hdrop & Hlt).
    rewrite length_list_ascii in Hlt. apply Nat.ltb_lt in Hlt.
    change (List.length (c :: rest) + 1 + k)%nat with (S (List.length rest + 1 + k)).
    change (Timer.plainFires userInput (S ?n) ?dw)
      with (Timer.plainFires userInput n (Timer.plainFire userInput dw)).
    unfold Timer.plainFire at 1, Timer.plainCallback. simpl fst. simpl snd.
    simpl Timer.plainCleared. cbv iota. simpl Timer.plainIndex.
    rewrite Hlt, get_nth_error, Hnth.
    rewrite (IH (S i) _ Hdrop).
    replace (i + List.length (c :: rest))%nat with (S i + List.length rest)%nat
      by (simpl; lia).
    reflexivity.
Qed.

End PlainTimerFacts.

Lemma trace_typing (s : string) (rest : list ascii) :
  Basic.trace s (map (fun c => insertCharacter (JS.VString (String c EmptyString))) rest)
  = Timer.prefixes s rest.
Proof.
  revert s. induction rest as [|c rest IH]; intros s; [reflexivity|].
  simpl map. rewrite trace_cons, reducer_types, IH. reflexivity.
Qed.

(** X17: adding the RANDOM actions and the change detection together left
    the output as it was: for any input, the naive renderer driven by the
    first callback (no RANDOM actions) and the change-detecting renderer
    driven by the callback with RANDOM actions print the same lines. *)
Theorem change_detection_restores_output (userInput : string) (k k' : nat) :
  Naive.console
    (snd (Timer.plainFires userInput (String.length userInput + 1 + k)
            (Timer.plainStart, Naive.boot)))
  = Basic.lines
      (snd (Timer.fires userInput
              (String.length userInput + (String.length userInput - 1) / 5 + 1 + k')
              (Timer.start, Basic.boot))).
Proof.
  rewrite <- (length_list_ascii userInput) at 1.
  unfold Timer.plainStart.
  rewrite (plainFires_script userInput _ 0 Naive.boot k (drop_0 _)).
  cbn [snd]. change (Redux.dispatches reducer ?l Naive.boot) with (Naive.run l).
  rewrite naive_console_run, trace_typing.
  replace (String.length userInput + (String.length userInput - 1) / 5 + 1 + k')%nat
    with (List.length (Timer.script (list_ascii_of_string userInput) 0) + 1 + k')%nat.
  2:{ rewrite script_length, length_list_ascii.
      change (0 / 5)%nat with 0%nat. rewrite Nat.sub_0_r. reflexivity. }
  unfold Timer.start.
  rewrite (fires_script userInput _ 0 Basic.boot k' (drop_0 _)).
  cbn [snd]. change (Redux.dispatches reducer ?l Basic.boot) with (Basic.run l).
  rewrite BasicFacts.lines_run, <- rendered_from_undefined, trace_script.
  by rewrite rendered_prefixes by by left.
Qed.

(** ** The build configuration *)

Lemma prefix_spec (p s : string) :
  String.prefix p s = true <-> exists rest, s = p +:+ rest.
Proof.
  revert s. induction p as [|c p IH]; intros s.
  - split; [intros _; by exists s | intros _; by destruct s].
  - destruct s as [|c' s]; simpl.
    + split; [discriminate | intros [rest H]; discriminate].
    + destruct (Ascii.ascii_dec c c') as [->|Hne].
      * rewrite IH. split; intros [rest H]; exists rest.
        -- by rewrite H.
        -- by injection H.
      * split; [discriminate|]. intros [rest H]. injection H as H _. congruence.
Qed.

Lemma occurs_nil (p : string) :
  Rollup.occurs p EmptyString = String.prefix p EmptyString.
Proof. unfold Rollup.occurs. apply orb_false_r. Qed.

Lemma occurs_cons (p : string) (c : ascii) (s : string) :
  Rollup.occurs p (String c s) = String.prefix p (String c s) || Rollup.occurs p s.
Proof. reflexivity. Qed.

Lemma occurs_spec (p s : string) :
  Rollup.occurs p s = true <-> exists before rest, s = before +:+ p +:+ rest.
Proof.
  induction s as [|c s IH].
  - rewrite occurs_nil, prefix_spec. split.
    + intros [rest H]. by exists "", rest.
    + intros (before & rest & H). destruct before; [by exists rest | discriminate].
  - rewrite occurs_cons, orb_true_iff, prefix_spec, IH. split.
    + intros [[rest H]|(before & rest & H)].
      * by exists "", rest.
      * exists (String c before), rest. change (String c s = String c (before +:+ p +:+ rest)).
        by rewrite H.
    + intros (before & rest & H). destruct before as [|c' before].
      * left. by exists rest.
      * right. exists before, rest. by injection H.
Qed.

(** X18: the build's [onwarn] drops exactly the warnings in which
    "Treating" occurs somewhere (case-sensitively) and passes every other
    one to the error console unchanged, after what was there. *)
Theorem onwarn_filters_treating (str : string) (stderr : list string) :
  ((exists before rest, str = before +:+ "Treating" +:+ rest) ->
   Rollup.onwarn str stderr = stderr)
  /\ (~ (exists before rest, str = before +:+ "Treating" +:+ rest) ->
      Rollup.onwarn str stderr = stderr ++ [str]).
Proof.
  unfold Rollup.onwarn. split; intros H.
  - apply occurs_spec in H. by rewrite H.
  - destruct (Rollup.occurs "Treating" str) eqn:E; [|reflexivity].
    exfalso. apply H. by apply occurs_spec.
Qed.

Lemma onwarn_filters_treating_witness :
  Rollup.onwarn "Treating 'react' as external dependency" [] = []
  /\ Rollup.onwarn "treating it lower-case" [] = ["treating it lower-case"].
Proof.
  split.
  - apply (proj1 (onwarn_filters_treating "Treating 'react' as external dependency" [])).
    by exists "", " 'react' as external dependency".
  - apply (proj2 (onwarn_filters_treating "treating it lower-case" [])).
    intros H. apply occurs_spec in H. discriminate.
Defined.
